(** * HashiRWA demo: record lifecycle and proof hashing

    A shallow embedding of [main.py]: the metadata builder, the canonical
    JSON serialisation and SHA-256 proof hash, the submission handler, the
    admin approve / reject handlers, the lists that the admin page and the
    marketplace are built from and the lookup of the two routes of one
    record, followed by the properties the specification states about them
    and by further properties read off the code.

    Modelling conventions.
    - A Python [str] is a sequence of Unicode code points ([list N]);
      [py "..."] is a literal of the source.  [bytes] are [list N] below
      256.
    - A Python [dict] is an association list in insertion order; a dict
      never holds a key twice, which is the [wf_json] invariant.
    - [db.json] is the record store: the list under its ["items"] key.  Each
      handler takes the store it loads and returns the store it leaves.
    - The wall clock is an input: what [datetime.now()] and [generate_id()]
      answer are arguments ([clock], [item_id]) of the handlers that read
      them.
    - [admin], [market] and [listing] paste text of the request and of the
      store into the source of the template that they then render.  The
      rendering parses that text and can raise; it is not modelled.  The
      model of these three handlers ends where the template is built, with
      the lists and the record it is built from. *)

From Stdlib Require Import String Ascii.
From Stdlib Require Import List NArith ZArith Bool Lia Permutation Sorted.
From Stdlib Require DecimalPos DecimalZ.
Import ListNotations.

Local Open Scope N_scope.

(** ** Python strings *)

Definition str := list N.

(** A literal of the source file, which Python reads as UTF-8. *)
Fixpoint utf8_decode (b : list N) : str :=
  match b with
  | [] => []
  | b0 :: r =>
      if b0 <? 0x80 then b0 :: utf8_decode r
      else if b0 <? 0xE0 then
        match r with
        | b1 :: r' =>
            N.lor (N.shiftl (N.land b0 0x1F) 6) (N.land b1 0x3F)
            :: utf8_decode r'
        | _ => []
        end
      else if b0 <? 0xF0 then
        match r with
        | b1 :: b2 :: r' =>
            N.lor (N.shiftl (N.land b0 0x0F) 12)
              (N.lor (N.shiftl (N.land b1 0x3F) 6) (N.land b2 0x3F))
            :: utf8_decode r'
        | _ => []
        end
      else
        match r with
        | b1 :: b2 :: b3 :: r' =>
            N.lor (N.shiftl (N.land b0 0x07) 18)
              (N.lor (N.shiftl (N.land b1 0x3F) 12)
                 (N.lor (N.shiftl (N.land b2 0x3F) 6) (N.land b3 0x3F)))
            :: utf8_decode r'
        | _ => []
        end
  end.

Definition py (s : string) : str :=
  utf8_decode (map N_of_ascii (list_ascii_of_string s)).
Arguments py s%_string.

Fixpoint str_eqb (a b : str) : bool :=
  match a, b with
  | [], [] => true
  | x :: a', y :: b' => (x =? y) && str_eqb a' b'
  | _, _ => false
  end.

(** [a < b] on [str]: lexicographic on code points, a proper prefix first. *)
Fixpoint str_ltb (a b : str) : bool :=
  match a, b with
  | _, [] => false
  | [], _ :: _ => true
  | x :: a', y :: b' => (x <? y) || ((x =? y) && str_ltb a' b')
  end.

Definition str_leb (a b : str) : bool := negb (str_ltb b a).

(** The character of ["0123456789abcdef"] at index [d]. *)
Definition hex_digit (d : N) : N := if d <? 10 then 48 + d else 87 + d.

(** [str.join] *)
Fixpoint join (sep : str) (parts : list str) : str :=
  match parts with
  | [] => []
  | [p] => p
  | p :: rest => p ++ sep ++ join sep rest
  end.

(** [Py_UNICODE_ISSPACE]: the code points [str.strip()] removes. *)
Definition isspace (c : N) : bool :=
  ((0x09 <=? c) && (c <=? 0x0D)) || ((0x1C <=? c) && (c <=? 0x20))
  || (c =? 0x85) || (c =? 0xA0) || (c =? 0x1680)
  || ((0x2000 <=? c) && (c <=? 0x200A))
  || (c =? 0x2028) || (c =? 0x2029) || (c =? 0x202F) || (c =? 0x205F)
  || (c =? 0x3000).

Fixpoint lstrip (s : str) : str :=
  match s with
  | c :: s' => if isspace c then lstrip s' else s
  | [] => []
  end.

Definition rstrip (s : str) : str := rev (lstrip (rev s)).

Definition strip (s : str) : str := rstrip (lstrip s).

(** [s.encode('utf-8')]; [None] is [UnicodeEncodeError] (a lone surrogate)
    or a value that is no code point at all. *)
Definition utf8_char (c : N) : option (list N) :=
  if c <? 0x80 then Some [c]
  else if c <? 0x800 then
    Some [N.lor 0xC0 (N.shiftr c 6); N.lor 0x80 (N.land c 0x3F)]
  else if c <? 0x10000 then
    if (0xD800 <=? c) && (c <=? 0xDFFF) then None
    else Some [N.lor 0xE0 (N.shiftr c 12);
               N.lor 0x80 (N.land (N.shiftr c 6) 0x3F);
               N.lor 0x80 (N.land c 0x3F)]
  else if c <? 0x110000 then
    Some [N.lor 0xF0 (N.shiftr c 18);
          N.lor 0x80 (N.land (N.shiftr c 12) 0x3F);
          N.lor 0x80 (N.land (N.shiftr c 6) 0x3F);
          N.lor 0x80 (N.land c 0x3F)]
  else None.

Fixpoint encode_utf8 (s : str) : option (list N) :=
  match s with
  | [] => Some []
  | c :: s' =>
      match utf8_char c, encode_utf8 s' with
      | Some b, Some bs => Some (b ++ bs)
      | _, _ => None
      end
  end.

(** ** [datetime] *)

(** A naive [datetime]; the type keeps every field in its range
    ([valid_datetime]). *)
Record datetime := Datetime {
  year : N; month : N; day : N;
  hour : N; minute : N; second : N; microsecond : N }.

Definition valid_datetime (d : datetime) : bool :=
  (1 <=? year d) && (year d <=? 9999)
  && (1 <=? month d) && (month d <=? 12)
  && (1 <=? day d) && (day d <=? 31)
  && (hour d <? 24) && (minute d <? 60) && (second d <? 60)
  && (microsecond d <? 1000000).

(** [d1 < d2] on naive datetimes: field by field. *)
Definition datetime_ltb (d1 d2 : datetime) : bool :=
  (year d1 <? year d2) || ((year d1 =? year d2) &&
  ((month d1 <? month d2) || ((month d1 =? month d2) &&
  ((day d1 <? day d2) || ((day d1 =? day d2) &&
  ((hour d1 <? hour d2) || ((hour d1 =? hour d2) &&
  ((minute d1 <? minute d2) || ((minute d1 =? minute d2) &&
  ((second d1 <? second d2) || ((second d1 =? second d2) &&
  (microsecond d1 <? microsecond d2)))))))))))).

Definition datetime_leb (d1 d2 : datetime) : bool := negb (datetime_ltb d2 d1).

(** The last [width] decimal digits of [n]: ["%0<width>d"] for a number
    that fits. *)
Fixpoint zero_padded (width : nat) (n : N) : str :=
  match width with
  | O => []
  | S w => zero_padded w (n / 10) ++ [48 + n mod 10]
  end.

(** The fraction of a second that [isoformat] writes: none at 0. *)
Definition fraction (us : N) : str :=
  if us =? 0 then [] else py "." ++ zero_padded 6 us.

(** [d.isoformat()]: [YYYY-MM-DDTHH:MM:SS], then [.ffffff] unless the
    microsecond is 0. *)
Definition isoformat (d : datetime) : str :=
  zero_padded 4 (year d) ++ py "-" ++ zero_padded 2 (month d) ++ py "-"
  ++ zero_padded 2 (day d) ++ py "T" ++ zero_padded 2 (hour d) ++ py ":"
  ++ zero_padded 2 (minute d) ++ py ":" ++ zero_padded 2 (second d)
  ++ fraction (microsecond d).

(** ** [hashlib.sha256] (FIPS 180-4) *)

Module SHA256.

Definition mask32 : N := 0xFFFFFFFF.
Definition add32 (x y : N) : N := N.land (x + y) mask32.
Definition rotr (n x : N) : N :=
  N.lor (N.shiftr x n) (N.land (N.shiftl x (32 - n)) mask32).
Definition not32 (x : N) : N := N.lxor x mask32.

Definition Ch (x y z : N) := N.lxor (N.land x y) (N.land (not32 x) z).
Definition Maj (x y z : N) :=
  N.lxor (N.lxor (N.land x y) (N.land x z)) (N.land y z).
Definition Sig0 (x : N) := N.lxor (N.lxor (rotr 2 x) (rotr 13 x)) (rotr 22 x).
Definition Sig1 (x : N) := N.lxor (N.lxor (rotr 6 x) (rotr 11 x)) (rotr 25 x).
Definition sig0 (x : N) := N.lxor (N.lxor (rotr 7 x) (rotr 18 x)) (N.shiftr x 3).
Definition sig1 (x : N) := N.lxor (N.lxor (rotr 17 x) (rotr 19 x)) (N.shiftr x 10).

(** A table of words written as in FIPS 180-4: hexadecimal, a space in
    between. *)
Definition hex_value (c : N) : N := if c <? 58 then c - 48 else c - 87.

Fixpoint hex_words_from (cs : str) (acc : N) : list N :=
  match cs with
  | [] => [acc]
  | c :: cs' =>
      if c =? 32 then acc :: hex_words_from cs' 0
      else hex_words_from cs' (16 * acc + hex_value c)
  end.

Definition hex_words (s : string) : list N := hex_words_from (py s) 0.
Arguments hex_words s%_string.

Definition K : list N :=
  hex_words
    "428a2f98 71374491 b5c0fbcf e9b5dba5 3956c25b 59f111f1 923f82a4 ab1c5ed5 d807aa98 12835b01 243185be 550c7dc3 72be5d74 80deb1fe 9bdc06a7 c19bf174 e49b69c1 efbe4786 0fc19dc6 240ca1cc 2de92c6f 4a7484aa 5cb0a9dc 76f988da 983e5152 a831c66d b00327c8 bf597fc7 c6e00bf3 d5a79147 06ca6351 14292967 27b70a85 2e1b2138 4d2c6dfc 53380d13 650a7354 766a0abb 81c2c92e 92722c85 a2bfe8a1 a81a664b c24b8b70 c76c51a3 d192e819 d6990624 f40e3585 106aa070 19a4c116 1e376c08 2748774c 34b0bcb5 391c0cb3 4ed8aa4a 5b9cca4f 682e6ff3 748f82ee 78a5636f 84c87814 8cc70208 90befffa a4506ceb bef9a3f7 c67178f2".

(** The eight working words. *)
Record regs := Regs {
  ra : N; rb : N; rc : N; rd : N; re : N; rf : N; rg : N; rh : N }.

Definition regs_of (ws : list N) : regs :=
  Regs (nth 0 ws 0) (nth 1 ws 0) (nth 2 ws 0) (nth 3 ws 0)
       (nth 4 ws 0) (nth 5 ws 0) (nth 6 ws 0) (nth 7 ws 0).

Definition H0 : regs :=
  regs_of
    (hex_words
       "6a09e667 bb67ae85 3c6ef372 a54ff53a 510e527f 9b05688c 1f83d9ab 5be0cd19").

(** Big-endian bytes of an integer, [n] of them. *)
Fixpoint be_bytes (n : nat) (x : N) : list N :=
  match n with
  | O => []
  | S n' => N.land (N.shiftr x (8 * N.of_nat n')) 0xFF :: be_bytes n' x
  end.

Definition be_word (b : list N) : N :=
  fold_left (fun acc x => N.lor (N.shiftl acc 8) x) b 0.

(** Padding: a 1 bit, zeros up to 56 mod 64, the bit length on 8 bytes. *)
Definition pad (msg : list N) : list N :=
  let len := N.of_nat (List.length msg) in
  let zeros := N.to_nat ((119 - len mod 64) mod 64) in
  msg ++ [0x80] ++ repeat 0 zeros ++ be_bytes 8 (8 * len).

Fixpoint chunks {A} (size count : nat) (l : list A) : list (list A) :=
  match count with
  | O => []
  | S c => firstn size l :: chunks size c (skipn size l)
  end.

Definition block_words (block : list N) : list N :=
  map be_word (chunks 4 16 block).

(** Message schedule: [k] more words after the ones in [w]. *)
Fixpoint extend (k : nat) (w : list N) : list N :=
  match k with
  | O => w
  | S k' =>
      let i := List.length w in
      let at_ j := nth (i - j) w 0 in
      extend k' (w ++ [add32 (add32 (sig1 (at_ 2%nat)) (at_ 7%nat))
                             (add32 (sig0 (at_ 15%nat)) (at_ 16%nat))])
  end.

Definition round (s : regs) (kw : N * N) : regs :=
  let t1 := add32 (add32 (add32 (rh s) (Sig1 (re s)))
                         (add32 (Ch (re s) (rf s) (rg s)) (fst kw))) (snd kw) in
  let t2 := add32 (Sig0 (ra s)) (Maj (ra s) (rb s) (rc s)) in
  Regs (add32 t1 t2) (ra s) (rb s) (rc s) (add32 (rd s) t1) (re s) (rf s) (rg s).

Definition compress (h : regs) (block : list N) : regs :=
  let w := extend 48 (block_words block) in
  let s := fold_left round (combine K w) h in
  Regs (add32 (ra h) (ra s)) (add32 (rb h) (rb s))
       (add32 (rc h) (rc s)) (add32 (rd h) (rd s))
       (add32 (re h) (re s)) (add32 (rf h) (rf s))
       (add32 (rg h) (rg s)) (add32 (rh h) (rh s)).

(** [sha256(msg).digest()]: 32 bytes. *)
Definition digest (msg : list N) : list N :=
  let p := pad msg in
  let h := fold_left compress (chunks 64 (List.length p / 64) p) H0 in
  flat_map (be_bytes 4)
    [ra h; rb h; rc h; rd h; re h; rf h; rg h; rh h].

Definition hex_byte (b : N) : str :=
  [hex_digit (N.land (N.shiftr b 4) 0xF); hex_digit (N.land b 0xF)].

(** [sha256(msg).hexdigest()] *)
Definition hexdigest (msg : list N) : str := flat_map hex_byte (digest msg).

End SHA256.

(** ** Sorting: [list.sort(key=..., reverse=...)]

    [list.sort] is stable and compares keys with [<] only.  A stable sort
    has one possible result, computed here by insertion; with
    [reverse=True] CPython reverses the list, sorts it, and reverses it
    again, so that equal keys keep their original order. *)

Section Sort.
Context {A : Type} (key : A -> str).

Fixpoint insert_by (x : A) (l : list A) : list A :=
  match l with
  | [] => [x]
  | y :: l' =>
      if str_ltb (key y) (key x) then y :: insert_by x l' else x :: l
  end.

Fixpoint sort_by (l : list A) : list A :=
  match l with
  | [] => []
  | x :: l' => insert_by x (sort_by l')
  end.

Definition list_sort (reverse : bool) (l : list A) : list A :=
  if reverse then rev (sort_by (rev l)) else sort_by l.
End Sort.

(** ** JSON values and [json.dumps] *)

(** The values metadata is made of: integers, strings and nested dicts. *)
#[warnings="-register-all"]
Inductive json :=
| JInt (n : Z)
| JStr (s : str)
| JDict (items : list (str * json)).

(** [d[k]] and [d.get(k)]: [None] when the key is missing. *)
Fixpoint dict_get {V} (d : list (str * V)) (k : str) : option V :=
  match d with
  | [] => None
  | (k', v) :: d' => if str_eqb k' k then Some v else dict_get d' k
  end.

Definition dict_get_default {V} (d : list (str * V)) (k : str) (default : V) : V :=
  match dict_get d k with
  | Some v => v
  | None => default
  end.

(** The dict invariant: no key twice, at every level. *)
Fixpoint unique_keys (ks : list str) : bool :=
  match ks with
  | [] => true
  | k :: ks' => negb (existsb (str_eqb k) ks') && unique_keys ks'
  end.

Fixpoint wf_json (j : json) : bool :=
  match j with
  | JDict items =>
      unique_keys (map fst items) && forallb (fun kv => wf_json (snd kv)) items
  | _ => true
  end.

(** Python's [==] on these values; on dicts: as many items, and every key
    of the left one is in the right one with an equal value. *)
Fixpoint py_eq (a b : json) : bool :=
  match a, b with
  | JInt x, JInt y => (x =? y)%Z
  | JStr s, JStr t => str_eqb s t
  | JDict l1, JDict l2 =>
      (List.length l1 =? List.length l2)%nat
      && forallb (fun kv =>
                    match dict_get l2 (fst kv) with
                    | Some v' => py_eq (snd kv) v'
                    | None => false
                    end) l1
  | _, _ => false
  end.

Fixpoint uint_chars (u : Decimal.uint) : str :=
  match u with
  | Decimal.Nil => []
  | Decimal.D0 u' => 48 :: uint_chars u'
  | Decimal.D1 u' => 49 :: uint_chars u'
  | Decimal.D2 u' => 50 :: uint_chars u'
  | Decimal.D3 u' => 51 :: uint_chars u'
  | Decimal.D4 u' => 52 :: uint_chars u'
  | Decimal.D5 u' => 53 :: uint_chars u'
  | Decimal.D6 u' => 54 :: uint_chars u'
  | Decimal.D7 u' => 55 :: uint_chars u'
  | Decimal.D8 u' => 56 :: uint_chars u'
  | Decimal.D9 u' => 57 :: uint_chars u'
  end.

(** [int.__repr__] *)
Definition int_repr (n : Z) : str :=
  match Z.to_int n with
  | Decimal.Pos u => uint_chars u
  | Decimal.Neg u => 45 :: uint_chars u
  end.

(** [json.encoder.ESCAPE_DCT], the table used with [ensure_ascii=False]:
    a backslash (0x5C) before the quote (0x22) and the backslash, the short
    escapes of the five named control characters, and a four-digit
    lower-case [\u] escape for the other code points below 0x20. *)
Definition escape_char (c : N) : str :=
  if c =? 0x22 then [0x5C; 0x22]
  else if c =? 0x5C then [0x5C; 0x5C]
  else if c =? 0x0A then 0x5C :: py "n"
  else if c =? 0x0D then 0x5C :: py "r"
  else if c =? 0x09 then 0x5C :: py "t"
  else if c =? 0x08 then 0x5C :: py "b"
  else if c =? 0x0C then 0x5C :: py "f"
  else if c <? 0x20 then
    0x5C :: py "u00"
    ++ [hex_digit (N.shiftr c 4); hex_digit (N.land c 0xF)]
  else [c].

Definition encode_basestring (s : str) : str :=
  [0x22] ++ flat_map escape_char s ++ [0x22].

Definition item_text (kv : str * str) : str :=
  encode_basestring (fst kv) ++ py ": " ++ snd kv.

(** [json.dumps(j, sort_keys=..., ensure_ascii=False)] with the default
    separators.  The encoder sorts a dict's items by key and then encodes
    each value; here each value is encoded first and the encoded items are
    sorted by the same keys, which [dumps_dict] shows to be the same
    text. *)
Fixpoint dumps (sort_keys : bool) (j : json) : str :=
  match j with
  | JInt n => int_repr n
  | JStr s => encode_basestring s
  | JDict items =>
      let encoded := map (fun kv => (fst kv, dumps sort_keys (snd kv))) items in
      let ordered := if sort_keys then sort_by fst encoded else encoded in
      py "{" ++ join (py ", ") (map item_text ordered) ++ py "}"
  end.

(** ** The application *)

Inductive exn := KeyError (k : str) | UnicodeEncodeError.

(** A computation that returns or raises. *)
Definition result (A : Type) := sum exn A.
Definition ret {A} (a : A) : result A := inr a.
Definition raise {A} (e : exn) : result A := inl e.
Definition bind {A B} (m : result A) (f : A -> result B) : result B :=
  match m with
  | inl e => inl e
  | inr a => f a
  end.
Notation "x <- m ;; k" := (bind m (fun x => k))
  (at level 61, m at next level, right associativity).

(** [d[k]] *)
Definition dict_index {V} (d : list (str * V)) (k : str) : result V :=
  match dict_get d k with
  | Some v => ret v
  | None => raise (KeyError k)
  end.

Definition compute_proof_hash (metadata : json) : result str :=
  let metadata_str := dumps true metadata in
  match encode_utf8 metadata_str with
  | Some bytes => ret (SHA256.hexdigest bytes)
  | None => raise UnicodeEncodeError
  end.

Definition create_metadata (form_data : list (str * str)) : result json :=
  producer_name <- dict_index form_data (py "producer_name") ;;
  prefecture <- dict_index form_data (py "prefecture") ;;
  product <- dict_index form_data (py "product") ;;
  certification <- dict_index form_data (py "certification") ;;
  lot_size <- dict_index form_data (py "lot_size") ;;
  harvest_date <- dict_index form_data (py "harvest_date") ;;
  ret (JDict
    [ (py "rwa_version", JInt 1);
      (py "standard", JStr (py "hashirwa-demo"));
      (py "issuer", JStr producer_name);
      (py "jurisdiction", JDict
        [ (py "country", JStr (py "Japan"));
          (py "prefecture", JStr prefecture) ]);
      (py "asset", JDict
        [ (py "category", JStr (py "Agriculture"));
          (py "product", JStr product);
          (py "certification", JStr certification);
          (py "lot_size", JStr lot_size);
          (py "harvest_date", JStr harvest_date) ]);
      (py "contacts", JDict
        [ (py "email",
            JStr (dict_get_default form_data (py "contact_email") []));
          (py "wallet",
            JStr (dict_get_default form_data (py "wallet_address") [])) ]);
      (py "notes", JStr (dict_get_default form_data (py "notes") [])) ]).

(** A record of the store. *)
Record item_proof := { hash : str; sim_testnet_txid : str }.
Record item_timestamps := { created_at : str; updated_at : str }.
Record item := {
  id : Z;
  status : str;
  metadata : json;
  proof : item_proof;
  timestamps : item_timestamps }.

(** What a route answers. *)
Inductive response :=
| Confirmation (it : item)            (* "Submission Confirmed" page *)
| OnboardForm                         (* the submission form *)
| RedirectAdmin (k : str)             (* redirect(url_for('admin', k=...)) *)
| Abort (code : N)                    (* abort(code) *)
| ServerError (e : exn).              (* an exception nobody catches *)

Inductive http_method := GET | POST.

(** [request.form.get(k, "").strip()]; the form holds the posted pairs in
    order and [get] answers the first value of the key. *)
Definition form_field (form : list (str * str)) (k : str) : str :=
  strip (dict_get_default form k []).

(** The [form_data] dict that [onboard] builds from the request. *)
Definition form_data (form : list (str * str)) : list (str * str) :=
  [ (py "producer_name", form_field form (py "producer_name"));
    (py "prefecture", form_field form (py "prefecture"));
    (py "product", form_field form (py "product"));
    (py "certification", form_field form (py "certification"));
    (py "lot_size", form_field form (py "lot_size"));
    (py "harvest_date", form_field form (py "harvest_date"));
    (py "contact_email", form_field form (py "contact_email"));
    (py "wallet_address", form_field form (py "wallet_address"));
    (py "notes", form_field form (py "notes")) ].

Definition onboard (method : http_method) (form : list (str * str))
    (item_id : Z) (clock : datetime) (db : list item)
  : response * list item :=
  match method with
  | POST =>
      let created :=
        metadata <- create_metadata (form_data form) ;;
        proof_hash <- compute_proof_hash metadata ;;
        let sim_testnet_txid := py "testnet:" ++ firstn 16 proof_hash in
        let now := isoformat clock in
        ret {| id := item_id;
               status := py "pending";
               metadata := metadata;
               proof := {| hash := proof_hash;
                           sim_testnet_txid := sim_testnet_txid |};
               timestamps := {| created_at := now; updated_at := now |} |} in
      match created with
      | inr item => (Confirmation item, db ++ [item])
      | inl e => (ServerError e, db)
      end
  | GET => (OnboardForm, db)
  end.

Definition seed_items : list (list (str * str)) :=
  [ [ (py "producer_name", py "Shizuoka Green Tea Co.");
      (py "prefecture", py "静岡県");
      (py "product", py "Green Tea");
      (py "certification", py "JAS Organic");
      (py "lot_size", py "500kg");
      (py "harvest_date", py "2024-05-15");
      (py "contact_email", py "info@shizuoka-tea.jp");
      (py "wallet_address", py "0x1234567890abcdef1234567890abcdef12345678");
      (py "notes", py "Premium grade sencha from mountain slopes") ];
    [ (py "producer_name", py "Aomori Apple Farmers Union");
      (py "prefecture", py "青森県");
      (py "product", py "Apple");
      (py "certification", py "JGAP");
      (py "lot_size", py "1000kg");
      (py "harvest_date", py "2024-10-20");
      (py "contact_email", py "contact@aomori-apples.jp");
      (py "wallet_address", py "0xabcdef1234567890abcdef1234567890abcdef12");
      (py "notes", py "Fuji apples from certified organic farms") ];
    [ (py "producer_name", py "Hokkaidō Rice Collective");
      (py "prefecture", py "北海道");
      (py "product", py "Rice");
      (py "certification", py "JA");
      (py "lot_size", py "2000kg");
      (py "harvest_date", py "2024-09-30");
      (py "contact_email", py "hello@hokkaido-rice.jp");
      (py "wallet_address", py "0x567890abcdef1234567890abcdef1234567890ab");
      (py "notes", py "Premium short-grain rice variety") ] ].

(** The loop of [seed_data]; [ids] are the successive answers of
    [generate_id()], 0 once they run out. *)
Fixpoint seed_loop (seeds : list (list (str * str))) (ids : list Z)
    (now : str) (items : list item) : result (list item) :=
  match seeds with
  | [] => ret items
  | seed_item :: seeds' =>
      let item_id := hd 0%Z ids in
      metadata <- create_metadata seed_item ;;
      proof_hash <- compute_proof_hash metadata ;;
      let sim_testnet_txid := py "testnet:" ++ firstn 16 proof_hash in
      let item :=
        {| id := item_id;
           status := py "approved";
           metadata := metadata;
           proof := {| hash := proof_hash;
                       sim_testnet_txid := sim_testnet_txid |};
           timestamps := {| created_at := now; updated_at := now |} |} in
      seed_loop seeds' (tl ids) now (items ++ [item])
  end.

Definition seed_data (ids : list Z) (clock : datetime) (db : list item)
  : result (list item) :=
  match db with
  | [] => seed_loop seed_items ids (isoformat clock) db
  | _ :: _ => ret db
  end.

(** [item["status"] = new_status; item["timestamps"]["updated_at"] = now] *)
Definition set_status (new_status now : str) (it : item) : item :=
  {| id := id it;
     status := new_status;
     metadata := metadata it;
     proof := proof it;
     timestamps := {| created_at := created_at (timestamps it);
                      updated_at := now |} |}.

(** The item [next(...)] finds is the first one that matches, and it is the
    object in the list that the handler then mutates. *)
Fixpoint update_first (p : item -> bool) (f : item -> item) (l : list item)
  : list item :=
  match l with
  | [] => []
  | x :: l' => if p x then f x :: l' else x :: update_first p f l'
  end.

Definition has_status (s : str) (it : item) : bool := str_eqb (status it) s.

Section Routes.
(** [ADMIN_KEY = os.environ.get("ADMIN_KEY", "hashirwa")] *)
Variable ADMIN_KEY : str.

(** [admin] up to line 536.  With another key it loads no store and builds
    the access page: [None].  With the key, [pending_items] and
    [approved_items] as they stand when the template of the page is built
    from them. *)
Definition admin_items (admin_key : str) (db : list item)
  : option (list item * list item) :=
  if negb (str_eqb admin_key ADMIN_KEY) then None
  else
    let pending_items := filter (has_status (py "pending")) db in
    let approved_items := filter (has_status (py "approved")) db in
    let pending_items :=
      list_sort (fun x => created_at (timestamps x)) false pending_items in
    let approved_items :=
      list_sort (fun x => updated_at (timestamps x)) true approved_items in
    Some (pending_items, approved_items).

Definition admin_approve (admin_key : str) (item_id : Z) (clock : datetime)
    (db : list item) : response * list item :=
  if negb (str_eqb admin_key ADMIN_KEY) then (Abort 403, db)
  else
    let wanted it := (id it =? item_id)%Z in
    match find wanted db with
    | Some _ =>
        (RedirectAdmin admin_key,
         update_first wanted (set_status (py "approved") (isoformat clock)) db)
    | None => (RedirectAdmin admin_key, db)
    end.

Definition admin_reject (admin_key : str) (item_id : Z) (clock : datetime)
    (db : list item) : response * list item :=
  if negb (str_eqb admin_key ADMIN_KEY) then (Abort 403, db)
  else
    let wanted it := (id it =? item_id)%Z in
    match find wanted db with
    | Some _ =>
        (RedirectAdmin admin_key,
         update_first wanted (set_status (py "rejected") (isoformat clock)) db)
    | None => (RedirectAdmin admin_key, db)
    end.

(** [market] up to line 639: [approved_items] as it stands when the
    template of the page is built from it. *)
Definition market_items (db : list item) : list item :=
  let approved_items := filter (has_status (py "approved")) db in
  list_sort (fun x => updated_at (timestamps x)) true approved_items.

(** One request that can write the store. *)
Inductive step : list item -> list item -> Prop :=
| step_onboard form item_id clock db :
    valid_datetime clock = true ->
    step db (snd (onboard POST form item_id clock db))
| step_approve admin_key item_id clock db :
    valid_datetime clock = true ->
    step db (snd (admin_approve admin_key item_id clock db))
| step_reject admin_key item_id clock db :
    valid_datetime clock = true ->
    step db (snd (admin_reject admin_key item_id clock db)).

(** The stores a fresh installation can reach: seeded at start-up, then
    any number of requests. *)
Inductive reachable : list item -> Prop :=
| reach_seed ids clock db :
    valid_datetime clock = true ->
    seed_data ids clock [] = inr db -> reachable db
| reach_step db db' :
    reachable db -> step db db' -> reachable db'.
End Routes.

Definition default_admin_key : str := py "hashirwa".


(** * Vocabulary of the properties *)

(** Order of two elements by their sort keys. *)
Definition key_le {A} (key : A -> str) (a b : A) : Prop :=
  str_leb (key a) (key b) = true.
Definition key_lt {A} (key : A -> str) (a b : A) : Prop :=
  str_ltb (key a) (key b) = true.

(** The submission of the specification's concrete scenario. *)
Definition scenario_form : list (str * str) :=
  [ (py "producer_name", py "Test Farm");
    (py "prefecture", py "東京都");
    (py "product", py "Rice");
    (py "lot_size", py "10kg");
    (py "harvest_date", py "2024-01-01") ].

(** Writes a text whose quotes are typed as apostrophes. *)
Definition quoted (s : string) : str :=
  map (fun c => if c =? 39 then 34 else c) (py s).


(** A character of ["0123456789abcdef"]. *)
Definition is_lower_hex (c : N) : bool :=
  ((48 <=? c) && (c <=? 57)) || ((97 <=? c) && (c <=? 102)).

(** Text as a request delivers it: Unicode scalar values, no surrogates. *)
Definition is_scalar (c : N) : bool :=
  (c <? 0xD800) || ((0xDFFF <? c) && (c <? 0x110000)).

Definition text (s : str) : bool := forallb is_scalar s.

Fixpoint json_text (j : json) : bool :=
  match j with
  | JInt _ => true
  | JStr s => text s
  | JDict items => forallb (fun kv => text (fst kv) && json_text (snd kv)) items
  end.

Definition form_text (form : list (str * str)) : bool :=
  forallb (fun kv => text (snd kv)) form.

(** [j[k1][k2]...] *)
Fixpoint json_path (j : json) (path : list str) : option json :=
  match path with
  | [] => Some j
  | k :: path' =>
      match j with
      | JDict items =>
          match dict_get items k with
          | Some v => json_path v path'
          | None => None
          end
      | _ => None
      end
  end.

(** The time that [s1] writes is not after the time that [s2] writes. *)
Definition not_after (s1 s2 : str) : Prop :=
  forall d1 d2,
    valid_datetime d1 = true -> valid_datetime d2 = true ->
    s1 = isoformat d1 -> s2 = isoformat d2 ->
    datetime_leb d1 d2 = true.

(** Both timestamps of a record were written by [isoformat]. *)
Definition stamped (it : item) : Prop :=
  exists c u,
    valid_datetime c = true /\ valid_datetime u = true
    /\ created_at (timestamps it) = isoformat c
    /\ updated_at (timestamps it) = isoformat u.

(** The fields the submission form marks as required. *)
Definition required_fields : list str :=
  [ py "producer_name"; py "prefecture"; py "product"; py "lot_size";
    py "harvest_date" ].

(** A required field is absent, or empty once trimmed. *)
Definition missing_required (form : list (str * str)) : bool :=
  existsb (fun k => match form_field form k with [] => true | _ => false end)
    required_fields.

(** "A submission that lacks a required field fails and creates no
    record." *)
Definition submit_rejects_incomplete : Prop :=
  forall form item_id clock db,
    missing_required form = true ->
    (forall it, fst (onboard POST form item_id clock db) <> Confirmation it)
    /\ snd (onboard POST form item_id clock db) = db.

(** "Once a record is approved or rejected, no admin operation changes its
    status", over the stores a fresh installation can reach. *)
Definition status_is_final (ADMIN_KEY : str) : Prop :=
  forall db, reachable ADMIN_KEY db ->
  forall admin_key item_id clock i it it',
    nth_error db i = Some it ->
    status it <> py "pending" ->
    (nth_error (snd (admin_approve ADMIN_KEY admin_key item_id clock db)) i
       = Some it' -> status it' = status it)
    /\ (nth_error (snd (admin_reject ADMIN_KEY admin_key item_id clock db)) i
          = Some it' -> status it' = status it).

(** A submission whose producer name is only spaces. *)
Definition blank_producer_form : list (str * str) :=
  [ (py "producer_name", py "   ");
    (py "prefecture", py "東京都");
    (py "product", py "Rice");
    (py "lot_size", py "10kg");
    (py "harvest_date", py "2024-01-01") ].

(** The scenario's metadata as [create_metadata] builds it, and the same
    content inserted in another order at every level. *)
Definition scenario_metadata : json :=
  JDict
    [ (py "rwa_version", JInt 1);
      (py "standard", JStr (py "hashirwa-demo"));
      (py "issuer", JStr (py "Test Farm"));
      (py "jurisdiction", JDict
        [ (py "country", JStr (py "Japan"));
          (py "prefecture", JStr (py "東京都")) ]);
      (py "asset", JDict
        [ (py "category", JStr (py "Agriculture"));
          (py "product", JStr (py "Rice"));
          (py "certification", JStr []);
          (py "lot_size", JStr (py "10kg"));
          (py "harvest_date", JStr (py "2024-01-01")) ]);
      (py "contacts", JDict
        [ (py "email", JStr []); (py "wallet", JStr []) ]);
      (py "notes", JStr []) ].

Definition scenario_metadata_reordered : json :=
  JDict
    [ (py "notes", JStr []);
      (py "contacts", JDict
        [ (py "wallet", JStr []); (py "email", JStr []) ]);
      (py "asset", JDict
        [ (py "harvest_date", JStr (py "2024-01-01"));
          (py "lot_size", JStr (py "10kg"));
          (py "certification", JStr []);
          (py "product", JStr (py "Rice"));
          (py "category", JStr (py "Agriculture")) ]);
      (py "jurisdiction", JDict
        [ (py "prefecture", JStr (py "東京都"));
          (py "country", JStr (py "Japan")) ]);
      (py "issuer", JStr (py "Test Farm"));
      (py "standard", JStr (py "hashirwa-demo"));
      (py "rwa_version", JInt 1) ].

(** A fresh installation after one submission that was then rejected. *)
Definition seeded_store : list item :=
  Eval vm_compute in
    match seed_data [101; 102; 103]%Z (Datetime 2024 1 1 9 0 0 1) [] with
    | inr db => db
    | inl _ => []
    end.

Definition submitted_store : list item :=
  Eval vm_compute in
    snd (onboard POST scenario_form 104 (Datetime 2024 1 2 10 0 0 0)
           seeded_store).

Definition rejected_store : list item :=
  Eval vm_compute in
    snd (admin_reject default_admin_key default_admin_key 104
           (Datetime 2024 1 3 11 30 0 250000) submitted_store).

(** * The rest of the application *)

(** What [metadata_json] answers. *)
Inductive detail_response :=
| JsonResponse (body : json)          (* jsonify(...) *)
| DetailAbort (code : N).             (* abort(code) *)

(** Where [listing] stands at line 704: it has aborted, or it has the
    record and the badge class that the template of the page is built
    from. *)
Inductive listing_lookup :=
| ListingAbort (code : N)             (* abort(code) *)
| ListingItem (it : item) (status_badge : str).

(** The badge class of [listing]: a dict lookup with a default. *)
Definition status_badge (status : str) : str :=
  dict_get_default
    [ (py "pending", py "badge-pending");
      (py "approved", py "badge-approved");
      (py "rejected", py "badge-rejected") ]
    status (py "badge-pending").

(** [listing] up to line 704. *)
Definition listing_item (item_id : Z) (db : list item) : listing_lookup :=
  match find (fun it => (id it =? item_id)%Z) db with
  | None => ListingAbort 404
  | Some it => ListingItem it (status_badge (status it))
  end.

(** The dict that [metadata_json] hands to [jsonify]. *)
Definition json_projection (it : item) : json :=
  JDict
    [ (py "id", JInt (id it));
      (py "status", JStr (status it));
      (py "metadata", metadata it);
      (py "proof", JDict
        [ (py "hash", JStr (hash (proof it)));
          (py "sim_testnet_txid", JStr (sim_testnet_txid (proof it))) ]);
      (py "timestamps", JDict
        [ (py "created_at", JStr (created_at (timestamps it)));
          (py "updated_at", JStr (updated_at (timestamps it))) ]) ].

Definition metadata_json (item_id : Z) (db : list item) : detail_response :=
  match find (fun it => (id it =? item_id)%Z) db with
  | None => DetailAbort 404
  | Some it => JsonResponse (json_projection it)
  end.

(** ** Vocabulary of the further properties *)

(** The keys that [create_metadata] reads with [form_data[...]], in the
    order it reads them. *)
Definition indexed_keys : list str :=
  [ py "producer_name"; py "prefecture"; py "product"; py "certification";
    py "lot_size"; py "harvest_date" ].

Definition lacks (fd : list (str * str)) (k : str) : bool :=
  match dict_get fd k with
  | Some _ => false
  | None => true
  end.

(** Where the nine form fields end up in the metadata. *)
Definition form_paths : list (list str) :=
  [ [py "issuer"];
    [py "jurisdiction"; py "prefecture"];
    [py "asset"; py "product"];
    [py "asset"; py "certification"];
    [py "asset"; py "lot_size"];
    [py "asset"; py "harvest_date"];
    [py "contacts"; py "email"];
    [py "contacts"; py "wallet"];
    [py "notes"] ].

(** What no request changes in a record. *)
Definition core (it : item) : Z * json * item_proof * str :=
  (id it, metadata it, proof it, created_at (timestamps it)).

(** The proof of a record is the one computed from its metadata. *)
Definition proof_matches (it : item) : Prop :=
  compute_proof_hash (metadata it) = inr (hash (proof it))
  /\ sim_testnet_txid (proof it) = py "testnet:" ++ firstn 16 (hash (proof it)).

Definition known_status (s : str) : Prop :=
  s = py "pending" \/ s = py "approved" \/ s = py "rejected".

(** The store that approve ([target] "approved") and reject ("rejected")
    leave: the shape the two handlers share. *)
Definition reviewed (key_ok : bool) (item_id : Z) (target now : str)
    (db : list item) : list item :=
  if key_ok then
    match find (fun x => (id x =? item_id)%Z) db with
    | Some _ =>
        update_first (fun x => (id x =? item_id)%Z) (set_status target now) db
    | None => db
    end
  else db.

(** A run of a fresh installation whose clock never goes back; the
    datetime is the last reading. *)
Inductive run (ADMIN_KEY : str) : datetime -> list item -> Prop :=
| run_seed ids clock db :
    valid_datetime clock = true ->
    seed_data ids clock [] = inr db ->
    run ADMIN_KEY clock db
| run_onboard last db form item_id clock :
    run ADMIN_KEY last db ->
    valid_datetime clock = true -> datetime_leb last clock = true ->
    run ADMIN_KEY clock (snd (onboard POST form item_id clock db))
| run_approve last db admin_key item_id clock :
    run ADMIN_KEY last db ->
    valid_datetime clock = true -> datetime_leb last clock = true ->
    run ADMIN_KEY clock (snd (admin_approve ADMIN_KEY admin_key item_id clock db))
| run_reject last db admin_key item_id clock :
    run ADMIN_KEY last db ->
    valid_datetime clock = true -> datetime_leb last clock = true ->
    run ADMIN_KEY clock (snd (admin_reject ADMIN_KEY admin_key item_id clock db)).

(** Two submissions that were given the same id, and the store after
    both. *)
Definition colliding_store : list item :=
  Eval vm_compute in
    snd (onboard POST blank_producer_form 104
           (Datetime 2024 1 2 10 0 1 104)
           (snd (onboard POST scenario_form 104
                   (Datetime 2024 1 2 10 0 0 104) seeded_store))).

(** The canonical form of a value: the items of every dict sorted by
    key. *)
Fixpoint canon (j : json) : json :=
  match j with
  | JDict items =>
      JDict (sort_by fst (map (fun kv => (fst kv, canon (snd kv))) items))
  | _ => j
  end.

(** What follows a value in a text is no digit. *)
Definition ends_number (r : str) : bool :=
  match r with
  | [] => true
  | c :: _ => negb ((48 <=? c) && (c <=? 57))
  end.

(** Reads one character of an encoded string back: [None] at the closing
    quote. *)
Definition unescape_head (s : str) : option (N * str) :=
  match s with
  | [] => None
  | c :: t =>
      if c =? 0x22 then None
      else if c =? 0x5C then
        match t with
        | e :: t' =>
            if e =? 0x22 then Some (0x22, t')
            else if e =? 0x5C then Some (0x5C, t')
            else if e =? 110 then Some (0x0A, t')
            else if e =? 114 then Some (0x0D, t')
            else if e =? 116 then Some (0x09, t')
            else if e =? 98 then Some (0x08, t')
            else if e =? 102 then Some (0x0C, t')
            else
              match t' with
              | _ :: _ :: d1 :: d2 :: t'' =>
                  Some (16 * SHA256.hex_value d1 + SHA256.hex_value d2, t'')
              | _ => None
              end
        | [] => None
        end
      else Some (c, t)
  end.
(** * Checks of the model on known values *)

Example sha256_empty :
  SHA256.hexdigest [] =
  py "e3b0c44298fc1c149afbf4c8996fb92427ae41e4649b934ca495991b7852b855".
Proof. vm_compute. reflexivity. Qed.

Example sha256_abc :
  SHA256.hexdigest (py "abc") =
  py "ba7816bf8f01cfea414140de5dae2223b00361a396177a9cb410ff61f20015ad".
Proof. vm_compute. reflexivity. Qed.

Example sha256_two_blocks :
  SHA256.hexdigest
    (py "abcdbcdecdefdefgefghfghighijhijkijkljklmklmnlmnomnopnopq") =
  py "248d6a61d20638b8e5c026930c3e6039a33ce45964ff2167f6ecedd419db06c1".
Proof. vm_compute. reflexivity. Qed.

Example strip_unicode_space :
  strip ([0x3000; 0x20] ++ py "A B" ++ [0x09; 0x0A]) = py "A B".
Proof. reflexivity. Qed.

Example dumps_insertion_order :
  dumps false (JDict [(py "b", JInt (-12)); (py "a", JStr [0x22; 0x5C; 0x0A; 1])])
  = quoted "{'b': -12, 'a': '\'\\\n\u0001'}".
Proof. reflexivity. Qed.

Example dumps_sorted_keys :
  dumps true (JDict [(py "b", JInt (-12)); (py "a", JDict [])])
  = quoted "{'a': {}, 'b': -12}".
Proof. reflexivity. Qed.

Example scenario_metadata_text :
  match onboard POST scenario_form 42 (Datetime 2024 1 1 10 0 0 0) [] with
  | (Confirmation it, _) => dumps true (metadata it)
  | _ => []
  end
  = quoted "{'asset': {'category': 'Agriculture', 'certification': '', 'harvest_date': '2024-01-01', 'lot_size': '10kg', 'product': 'Rice'}, 'contacts': {'email': '', 'wallet': ''}, 'issuer': 'Test Farm', 'jurisdiction': {'country': 'Japan', 'prefecture': '東京都'}, 'notes': '', 'rwa_version': 1, 'standard': 'hashirwa-demo'}".
Proof. vm_compute. reflexivity. Qed.

Example scenario_proof :
  match onboard POST scenario_form 42 (Datetime 2024 1 1 10 0 0 0) [] with
  | (Confirmation it, _) => (hash (proof it), sim_testnet_txid (proof it))
  | _ => ([], [])
  end
  = (py "6085b7c39bee21023390a365654bff280b2e798d8fb6dd845ffce0c5cfc66a95",
     py "testnet:6085b7c39bee2102").
Proof. vm_compute. reflexivity. Qed.

(** [list.sort] keeps records with equal keys in their original order,
    also with [reverse=True]; the second component tells them apart. *)
Example sort_is_stable :
  list_sort fst false [(py "b", 1); (py "a", 2); (py "b", 3); (py "a", 4)]
  = [(py "a", 2); (py "a", 4); (py "b", 1); (py "b", 3)].
Proof. reflexivity. Qed.

Example reverse_sort_is_stable :
  list_sort fst true [(py "b", 1); (py "a", 2); (py "b", 3); (py "a", 4)]
  = [(py "b", 1); (py "b", 3); (py "a", 2); (py "a", 4)].
Proof. reflexivity. Qed.

(** [isoformat()] leaves the fraction out at a whole second; the shorter
    text still sorts first. *)
Example isoformat_whole_second :
  isoformat (Datetime 2024 1 1 10 0 0 0) = py "2024-01-01T10:00:00".
Proof. reflexivity. Qed.

Example isoformat_microsecond :
  isoformat (Datetime 987 12 31 23 59 59 42) = py "0987-12-31T23:59:59.000042".
Proof. reflexivity. Qed.

Example whole_second_sorts_first :
  str_ltb (isoformat (Datetime 2024 1 1 10 0 0 0))
          (isoformat (Datetime 2024 1 1 10 0 0 1)) = true.
Proof. reflexivity. Qed.

(** * Strings: equality and order *)

Lemma str_eqb_eq (a b : str) : str_eqb a b = true <-> a = b.
Proof.
  revert b; induction a as [|x a IH]; intros [|y b]; simpl;
    try (split; [discriminate | discriminate]); try tauto.
  rewrite andb_true_iff, N.eqb_eq, IH.
  split; [intros [-> ->]; reflexivity | intros [= -> ->]; auto].
Qed.

Lemma str_eqb_refl (a : str) : str_eqb a a = true.
Proof. apply str_eqb_eq; reflexivity. Qed.

Lemma str_eqb_neq (a b : str) : str_eqb a b = false <-> a <> b.
Proof.
  rewrite <- str_eqb_eq. destruct (str_eqb a b); split; congruence.
Qed.

Lemma str_ltb_irrefl (a : str) : str_ltb a a = false.
Proof.
  induction a as [|x a IH]; simpl; [reflexivity|].
  rewrite N.ltb_irrefl, N.eqb_refl, IH. reflexivity.
Qed.

Lemma str_ltb_cons (x y : N) (a b : str) :
  str_ltb (x :: a) (y :: b) = true <-> x < y \/ (x = y /\ str_ltb a b = true).
Proof.
  simpl. rewrite orb_true_iff, andb_true_iff, N.ltb_lt, N.eqb_eq. tauto.
Qed.

Lemma str_ltb_trans (a b c : str) :
  str_ltb a b = true -> str_ltb b c = true -> str_ltb a c = true.
Proof.
  revert b c; induction a as [|x a IH]; intros [|y b] [|z c];
    try (simpl; congruence).
  rewrite !str_ltb_cons.
  intros [H1 | [-> H1]] [H2 | [-> H2]]; try (left; lia).
  right; split; [reflexivity | eapply IH; eauto].
Qed.

(** Two strings neither of which is below the other are the same string. *)
Lemma str_ltb_connex (a b : str) :
  str_ltb a b = false -> str_ltb b a = false -> a = b.
Proof.
  revert b; induction a as [|x a IH]; intros [|y b]; simpl;
    try congruence.
  rewrite !orb_false_iff, !andb_false_iff, !N.ltb_ge, !N.eqb_neq.
  intros [H1 H1'] [H2 H2'].
  assert (x = y) by lia; subst y.
  f_equal. apply IH; [destruct H1' | destruct H2']; congruence.
Qed.

Lemma str_ltb_asym (a b : str) : str_ltb a b = true -> str_ltb b a = false.
Proof.
  intros H. destruct (str_ltb b a) eqn:E; [|reflexivity].
  pose proof (str_ltb_trans _ _ _ H E) as T.
  rewrite str_ltb_irrefl in T. discriminate.
Qed.

Lemma str_leb_refl (a : str) : str_leb a a = true.
Proof. unfold str_leb. rewrite str_ltb_irrefl. reflexivity. Qed.

Lemma str_leb_trans (a b c : str) :
  str_leb a b = true -> str_leb b c = true -> str_leb a c = true.
Proof.
  unfold str_leb. rewrite !negb_true_iff. intros H1 H2.
  destruct (str_ltb c a) eqn:E; [|reflexivity].
  destruct (str_ltb a b) eqn:E1.
  - rewrite (str_ltb_trans _ _ _ E E1) in H2. discriminate.
  - rewrite (str_ltb_connex _ _ E1 H1) in E. congruence.
Qed.

Lemma str_ltb_leb (a b : str) : str_ltb a b = true -> str_leb a b = true.
Proof. intros H. unfold str_leb. rewrite (str_ltb_asym _ _ H). reflexivity. Qed.

(** * Sorting *)

Section SortFacts.
Context {A : Type} (key : A -> str).

Lemma insert_by_perm (x : A) (l : list A) :
  Permutation (insert_by key x l) (x :: l).
Proof.
  induction l as [|y l IH]; simpl; [reflexivity|].
  destruct (str_ltb (key y) (key x)); [|reflexivity].
  rewrite IH. apply perm_swap.
Qed.

Lemma sort_by_perm (l : list A) : Permutation (sort_by key l) l.
Proof.
  induction l as [|x l IH]; simpl; [reflexivity|].
  rewrite insert_by_perm. now constructor.
Qed.

Lemma insert_by_sorted (x : A) (l : list A) :
  StronglySorted (key_le key) l -> StronglySorted (key_le key) (insert_by key x l).
Proof.
  induction 1 as [|y l Hl IH Hy]; simpl.
  - repeat constructor.
  - destruct (str_ltb (key y) (key x)) eqn:E.
    + constructor; [exact IH|].
      eapply Permutation_Forall; [symmetry; apply insert_by_perm|].
      constructor; [apply str_ltb_leb, E | exact Hy].
    + assert (Hxy : key_le key x y) by (unfold key_le, str_leb; now rewrite E).
      constructor; [now constructor|].
      constructor; [exact Hxy|].
      eapply Forall_impl; [|exact Hy].
      intros z Hz. eapply str_leb_trans; eauto.
Qed.

Lemma sort_by_sorted (l : list A) : StronglySorted (key_le key) (sort_by key l).
Proof.
  induction l as [|x l IH]; simpl; [constructor|].
  now apply insert_by_sorted.
Qed.

Lemma StronglySorted_app (R : A -> A -> Prop) (l1 l2 : list A) :
  StronglySorted R l1 -> StronglySorted R l2 ->
  (forall a b, In a l1 -> In b l2 -> R a b) ->
  StronglySorted R (l1 ++ l2).
Proof.
  induction 1 as [|x l1 H1 IH Hx]; intros H2 Hc; simpl; [exact H2|].
  constructor.
  - apply IH; [exact H2 | intros; apply Hc; simpl; auto].
  - apply Forall_app; split; [exact Hx|].
    apply Forall_forall. intros b Hb. apply Hc; simpl; auto.
Qed.

Lemma StronglySorted_rev (R : A -> A -> Prop) (l : list A) :
  StronglySorted R l -> StronglySorted (fun a b => R b a) (rev l).
Proof.
  induction 1 as [|x l H IH Hx]; simpl; [constructor|].
  apply StronglySorted_app; [exact IH | repeat constructor |].
  intros a b Ha [<- | []].
  rewrite Forall_forall in Hx. apply Hx. now apply in_rev.
Qed.

(** What [list.sort(key=..., reverse=...)] leaves in the list. *)
Lemma list_sort_perm (reverse : bool) (l : list A) :
  Permutation (list_sort key reverse l) l.
Proof.
  destruct reverse; simpl; [|apply sort_by_perm].
  rewrite <- Permutation_rev, sort_by_perm. symmetry. apply Permutation_rev.
Qed.

Lemma list_sort_ascending (l : list A) :
  StronglySorted (key_le key) (list_sort key false l).
Proof. apply sort_by_sorted. Qed.

Lemma list_sort_descending (l : list A) :
  StronglySorted (fun a b => key_le key b a) (list_sort key true l).
Proof. apply StronglySorted_rev, sort_by_sorted. Qed.

(** With pairwise different keys the sorted list does not depend on the
    order the elements came in. *)
Lemma sorted_distinct_strict (l : list A) :
  NoDup (map key l) -> StronglySorted (key_le key) l -> StronglySorted (key_lt key) l.
Proof.
  induction l as [|x l IH]; intros Hn Hs; [constructor|].
  inversion Hn as [|? ? Hx Hn']; subst. inversion Hs as [|? ? Hs' Hall]; subst.
  constructor; [now apply IH|].
  rewrite Forall_forall in *. intros y Hy.
  specialize (Hall y Hy). unfold key_le, str_leb in Hall. unfold key_lt.
  apply negb_true_iff in Hall.
  destruct (str_ltb (key x) (key y)) eqn:E; [reflexivity|].
  exfalso. apply Hx. rewrite (str_ltb_connex _ _ E Hall).
  now apply in_map.
Qed.

Lemma strict_sorted_unique (l1 l2 : list A) :
  StronglySorted (key_lt key) l1 -> StronglySorted (key_lt key) l2 ->
  Permutation l1 l2 -> l1 = l2.
Proof.
  revert l2; induction l1 as [|x l1 IH]; intros l2 H1 H2 P.
  - now apply Permutation_nil in P.
  - destruct l2 as [|y l2];
      [symmetry in P; now apply Permutation_nil in P|].
    inversion H1 as [|? ? H1' F1]; subst. inversion H2 as [|? ? H2' F2]; subst.
    rewrite Forall_forall in F1, F2.
    assert (x = y) as ->.
    { assert (Hx : In x (y :: l2)) by (eapply Permutation_in; [exact P | now left]).
      assert (Hy : In y (x :: l1))
        by (eapply Permutation_in; [symmetry; exact P | now left]).
      destruct Hx as [-> | Hx]; [reflexivity|].
      destruct Hy as [-> | Hy]; [reflexivity|].
      pose proof (F1 y Hy) as A1. pose proof (F2 x Hx) as A2.
      unfold key_lt in A1, A2. apply str_ltb_asym in A1. congruence. }
    f_equal. apply IH; auto. eapply Permutation_cons_inv; eauto.
Qed.

Lemma sort_by_canonical (l1 l2 : list A) :
  NoDup (map key l1) -> Permutation l1 l2 ->
  sort_by key l1 = sort_by key l2.
Proof.
  intros Hn P.
  assert (Hn2 : NoDup (map key l2))
    by (eapply Permutation_NoDup; [apply Permutation_map; exact P | exact Hn]).
  apply strict_sorted_unique.
  - apply sorted_distinct_strict; [|apply sort_by_sorted].
    eapply Permutation_NoDup; [|exact Hn].
    apply Permutation_map. symmetry. apply sort_by_perm.
  - apply sorted_distinct_strict; [|apply sort_by_sorted].
    eapply Permutation_NoDup; [|exact Hn2].
    apply Permutation_map. symmetry. apply sort_by_perm.
  - rewrite !sort_by_perm. exact P.
Qed.

(** Sorting looks at the keys only. *)
Lemma sort_by_map {B : Type} (f : B -> A) (l : list B) :
  sort_by key (map f l) = map f (sort_by (fun b => key (f b)) l).
Proof.
  induction l as [|x l IH]; simpl; [reflexivity|].
  rewrite IH. generalize (sort_by (fun b => key (f b)) l) as s.
  induction s as [|y s IHs]; simpl; [reflexivity|].
  destruct (str_ltb (key (f y)) (key (f x))); simpl; [now rewrite IHs | reflexivity].
Qed.
End SortFacts.

(** * Timestamps: the order of the texts is the order of the times *)

Lemma zero_padded_length (w : nat) (n : N) :
  List.length (zero_padded w n) = w.
Proof.
  revert n; induction w as [|w IH]; intros n; simpl; [reflexivity|].
  rewrite length_app, IH. simpl. lia.
Qed.

Lemma str_ltb_app (a a' b b' : str) :
  List.length a = List.length a' ->
  str_ltb (a ++ b) (a' ++ b')
  = str_ltb a a' || (str_eqb a a' && str_ltb b b').
Proof.
  revert a'; induction a as [|x a IH]; intros [|y a'] L; simpl in L;
    try discriminate.
  - simpl. destruct b, b'; reflexivity.
  - injection L as L. cbn [app str_ltb str_eqb]. rewrite (IH a' L).
    destruct (x <? y), (x =? y), (str_ltb a a'), (str_eqb a a'),
      (str_ltb b b'); reflexivity.
Qed.

Lemma str_eqb_app (a a' b b' : str) :
  List.length a = List.length a' ->
  str_eqb (a ++ b) (a' ++ b') = str_eqb a a' && str_eqb b b'.
Proof.
  revert a'; induction a as [|x a IH]; intros [|y a'] L; simpl in L;
    try discriminate.
  - reflexivity.
  - injection L as L. cbn [app str_eqb]. rewrite (IH a' L).
    now rewrite andb_assoc.
Qed.

(** Numbers of the same width compare as their digits do. *)
Lemma zero_padded_order (w : nat) :
  forall n m, n < 10 ^ N.of_nat w -> m < 10 ^ N.of_nat w ->
  str_ltb (zero_padded w n) (zero_padded w m) = (n <? m)
  /\ str_eqb (zero_padded w n) (zero_padded w m) = (n =? m).
Proof.
  induction w as [|w IH]; intros n m Hn Hm.
  - change (10 ^ N.of_nat 0) with 1 in Hn, Hm.
    assert (n = 0) by lia. assert (m = 0) by lia. subst. split; reflexivity.
  - rewrite Nat2N.inj_succ, N.pow_succ_r' in Hn, Hm.
    assert (T : 10 <> 0) by discriminate.
    pose proof (N.div_mod n 10 T) as Dn. pose proof (N.div_mod m 10 T) as Dm.
    pose proof (N.mod_lt n 10 T) as Rn. pose proof (N.mod_lt m 10 T) as Rm.
    assert (Qn : n / 10 < 10 ^ N.of_nat w)
      by now apply N.Div0.div_lt_upper_bound.
    assert (Qm : m / 10 < 10 ^ N.of_nat w)
      by now apply N.Div0.div_lt_upper_bound.
    destruct (IH (n / 10) (m / 10) Qn Qm) as [Lt Eq].
    clear IH Hn Hm Qn Qm.
    cbn [zero_padded].
    rewrite str_ltb_app, str_eqb_app by (now rewrite !zero_padded_length).
    rewrite Lt, Eq. cbn [str_ltb str_eqb].
    rewrite !andb_false_r, !andb_true_r, !orb_false_r.
    generalize dependent (n / 10). generalize dependent (m / 10).
    generalize dependent (n mod 10). generalize dependent (m mod 10).
    intros rm Rm rn Rn qm Dm qn Dn _ _.
    split.
    + destruct (N.ltb_spec qn qm), (N.eqb_spec qn qm),
        (N.ltb_spec (48 + rn) (48 + rm)), (N.ltb_spec n m);
        try reflexivity; exfalso; lia.
    + destruct (N.eqb_spec qn qm), (N.eqb_spec (48 + rn) (48 + rm)),
        (N.eqb_spec n m);
        try reflexivity; exfalso; lia.
Qed.

Lemma zero_padded_ltb (w : nat) (n m : N) :
  n < 10 ^ N.of_nat w -> m < 10 ^ N.of_nat w ->
  str_ltb (zero_padded w n) (zero_padded w m) = (n <? m).
Proof. intros Hn Hm. now destruct (zero_padded_order w n m Hn Hm). Qed.

Lemma zero_padded_eqb (w : nat) (n m : N) :
  n < 10 ^ N.of_nat w -> m < 10 ^ N.of_nat w ->
  str_eqb (zero_padded w n) (zero_padded w m) = (n =? m).
Proof. intros Hn Hm. now destruct (zero_padded_order w n m Hn Hm). Qed.

Lemma valid_datetime_bounds (d : datetime) :
  valid_datetime d = true ->
  year d < 10 ^ N.of_nat 4 /\ month d < 10 ^ N.of_nat 2
  /\ day d < 10 ^ N.of_nat 2 /\ hour d < 10 ^ N.of_nat 2
  /\ minute d < 10 ^ N.of_nat 2 /\ second d < 10 ^ N.of_nat 2
  /\ microsecond d < 10 ^ N.of_nat 6.
Proof.
  unfold valid_datetime.
  rewrite !andb_true_iff, !N.leb_le, !N.ltb_lt.
  change (10 ^ N.of_nat 4) with 10000. change (10 ^ N.of_nat 2) with 100.
  change (10 ^ N.of_nat 6) with 1000000. lia.
Qed.

Lemma fraction_ltb (u1 u2 : N) :
  u1 < 10 ^ N.of_nat 6 -> u2 < 10 ^ N.of_nat 6 ->
  str_ltb (fraction u1) (fraction u2) = (u1 <? u2).
Proof.
  intros U1 U2. unfold fraction.
  destruct (N.eqb_spec u1 0) as [E1|E1], (N.eqb_spec u2 0) as [E2|E2].
  - rewrite E1, E2. reflexivity.
  - rewrite E1. symmetry. apply N.ltb_lt. lia.
  - rewrite E2. symmetry. apply N.ltb_ge. lia.
  - change (py ".") with [46]. cbn [app str_ltb].
    rewrite N.ltb_irrefl, N.eqb_refl. cbn [orb andb].
    now apply zero_padded_ltb.
Qed.

(** [isoformat] keeps the order of the datetimes, also between a whole
    second and a fraction of it. *)
Lemma isoformat_ltb (d1 d2 : datetime) :
  valid_datetime d1 = true -> valid_datetime d2 = true ->
  str_ltb (isoformat d1) (isoformat d2) = datetime_ltb d1 d2.
Proof.
  intros V1 V2.
  destruct (valid_datetime_bounds d1 V1) as (Y1 & M1 & D1 & H1 & I1 & S1 & U1).
  destruct (valid_datetime_bounds d2 V2) as (Y2 & M2 & D2 & H2 & I2 & S2 & U2).
  unfold isoformat, datetime_ltb.
  change (py "-") with [45]. change (py "T") with [84].
  change (py ":") with [58].
  repeat (rewrite str_ltb_app by (now rewrite !zero_padded_length);
          rewrite zero_padded_ltb, zero_padded_eqb by assumption;
          try (cbn [app str_ltb]; rewrite N.ltb_irrefl, N.eqb_refl;
               cbn [orb andb])).
  now rewrite fraction_ltb.
Qed.

Lemma isoformat_leb (d1 d2 : datetime) :
  valid_datetime d1 = true -> valid_datetime d2 = true ->
  str_leb (isoformat d1) (isoformat d2) = datetime_leb d1 d2.
Proof.
  intros V1 V2. unfold str_leb, datetime_leb. now rewrite isoformat_ltb.
Qed.

Lemma str_leb_not_after (s1 s2 : str) :
  str_leb s1 s2 = true -> not_after s1 s2.
Proof.
  intros H d1 d2 V1 V2 -> ->. now rewrite <- isoformat_leb.
Qed.

Lemma StronglySorted_weaken {A} (R S : A -> A -> Prop) (l : list A) :
  (forall a b, R a b -> S a b) -> StronglySorted R l -> StronglySorted S l.
Proof.
  intros RS. induction 1 as [|x l Hl IH Hx]; constructor; [exact IH|].
  eapply Forall_impl; [|exact Hx]. intros b. apply RS.
Qed.

(** * JSON values *)

Lemma json_induction (P : json -> Prop) :
  (forall n, P (JInt n)) ->
  (forall s, P (JStr s)) ->
  (forall items, Forall (fun kv => P (snd kv)) items -> P (JDict items)) ->
  forall j, P j.
Proof.
  intros Hint Hstr Hdict. fix IH 1.
  intros [n|s|items]; [apply Hint | apply Hstr |].
  apply Hdict. revert items. fix IHitems 1.
  intros [|[k v] items]; constructor; [apply IH | apply IHitems].
Qed.

Lemma dict_get_In {V} (d : list (str * V)) (k : str) (v : V) :
  dict_get d k = Some v -> In (k, v) d.
Proof.
  induction d as [|[k' v'] d IH]; simpl; [discriminate|].
  destruct (str_eqb k' k) eqn:E.
  - apply str_eqb_eq in E. intros [= ->]. subst. now left.
  - intros H. right. now apply IH.
Qed.

Lemma unique_keys_NoDup (ks : list str) : unique_keys ks = true -> NoDup ks.
Proof.
  induction ks as [|k ks IH]; simpl; [constructor|].
  rewrite andb_true_iff, negb_true_iff. intros [Hk Hks].
  constructor; [|now apply IH].
  intros Hin. apply not_true_iff_false in Hk. apply Hk.
  apply existsb_exists. exists k. split; [exact Hin | apply str_eqb_refl].
Qed.

(** The encoder's own order of work: sort the items, then encode them. *)
Lemma dumps_dict (sort_keys : bool) (items : list (str * json)) :
  dumps sort_keys (JDict items) =
  py "{"
  ++ join (py ", ")
       (map (fun kv => encode_basestring (fst kv) ++ py ": "
                       ++ dumps sort_keys (snd kv))
            (if sort_keys then sort_by fst items else items))
  ++ py "}".
Proof.
  cbn [dumps]. do 2 f_equal. destruct sort_keys.
  - rewrite (sort_by_map fst (fun kv => (fst kv, dumps true (snd kv)))).
    cbn [fst]. rewrite map_map. reflexivity.
  - rewrite map_map. reflexivity.
Qed.

(** Equal content gives the same canonical text. *)
Lemma dumps_sorted_py_eq (m1 : json) :
  forall m2, wf_json m1 = true -> wf_json m2 = true -> py_eq m1 m2 = true ->
  dumps true m1 = dumps true m2.
Proof.
  induction m1 as [n|s|l1 IH] using json_induction;
    intros [n2|s2|l2] W1 W2 E; simpl in E; try discriminate.
  - apply Z.eqb_eq in E. now subst.
  - apply str_eqb_eq in E. now subst.
  - cbn [wf_json] in W1, W2.
    apply andb_true_iff in W1 as [U1 F1]. apply andb_true_iff in W2 as [U2 F2].
    apply andb_true_iff in E as [Elen Eall]. apply Nat.eqb_eq in Elen.
    rewrite forallb_forall in F1, F2, Eall. rewrite Forall_forall in IH.
    cbn [dumps]. do 3 f_equal.
    set (g := fun kv : str * json => (fst kv, dumps true (snd kv))).
    assert (K1 : NoDup (map fst (map g l1))).
    { rewrite map_map. cbn [g fst]. now apply unique_keys_NoDup. }
    f_equal. apply sort_by_canonical; [exact K1|].
    apply NoDup_Permutation_bis.
    + eapply NoDup_map_inv; exact K1.
    + rewrite !length_map. lia.
    + intros kv Hkv. apply in_map_iff in Hkv as [[k v] [<- Hin]].
      specialize (Eall _ Hin). cbn [fst snd] in Eall.
      destruct (dict_get l2 k) as [v'|] eqn:G; [|discriminate].
      apply dict_get_In in G. apply in_map_iff. exists (k, v'). split; [|exact G].
      unfold g; cbn [fst snd]. f_equal. symmetry.
      apply (IH _ Hin v'); [exact (F1 _ Hin) | exact (F2 _ G) | exact Eall].
Qed.

(** * The proof hash *)

Lemma be_bytes_length (n : nat) (x : N) : List.length (SHA256.be_bytes n x) = n.
Proof. induction n as [|n IH]; simpl; [reflexivity | now rewrite IH]. Qed.

Lemma digest_length (msg : list N) : List.length (SHA256.digest msg) = 32%nat.
Proof.
  unfold SHA256.digest. cbn [flat_map].
  rewrite !length_app, !be_bytes_length. reflexivity.
Qed.

Lemma hex_bytes_length (l : list N) :
  List.length (flat_map SHA256.hex_byte l) = (2 * List.length l)%nat.
Proof. induction l as [|b l IH]; simpl; [reflexivity | rewrite IH; lia]. Qed.

Lemma nibble_bound (x : N) : N.land x 0xF < 16.
Proof.
  change 0xF with (N.ones 4). rewrite N.land_ones.
  apply N.mod_lt. discriminate.
Qed.

Lemma hex_digit_lower (d : N) :
  d < 16 -> is_lower_hex (hex_digit d) = true.
Proof.
  intros H. unfold is_lower_hex, hex_digit.
  destruct (d <? 10) eqn:E.
  - apply N.ltb_lt in E. apply orb_true_iff. left.
    apply andb_true_iff. split; apply N.leb_le; lia.
  - apply N.ltb_ge in E. apply orb_true_iff. right.
    apply andb_true_iff. split; apply N.leb_le; lia.
Qed.

Lemma hex_bytes_lower (l : list N) :
  forallb is_lower_hex (flat_map SHA256.hex_byte l) = true.
Proof.
  induction l as [|b l IH]; [reflexivity|].
  cbn [flat_map SHA256.hex_byte app forallb].
  rewrite !hex_digit_lower by apply nibble_bound. exact IH.
Qed.

(** Whatever is hashed, [hexdigest()] is 64 lower-case hex characters. *)
Lemma compute_proof_hash_format (m : json) (h : str) :
  compute_proof_hash m = inr h ->
  List.length h = 64%nat /\ forallb is_lower_hex h = true.
Proof.
  unfold compute_proof_hash. destruct (encode_utf8 (dumps true m)); [|discriminate].
  intros [= <-]. unfold SHA256.hexdigest.
  rewrite hex_bytes_length, digest_length, hex_bytes_lower. auto.
Qed.

(** * Text stays text *)

Lemma utf8_char_scalar (c : N) :
  is_scalar c = true -> exists b, utf8_char c = Some b.
Proof.
  unfold is_scalar, utf8_char. intros H.
  destruct (c <? 0x80); [eauto|].
  destruct (c <? 0x800); [eauto|].
  destruct (c <? 0x10000) eqn:E1.
  - destruct ((0xD800 <=? c) && (c <=? 0xDFFF)) eqn:E2; [|eauto].
    exfalso. apply andb_true_iff in E2 as [A B].
    apply N.leb_le in A, B.
    apply orb_true_iff in H as [H | H].
    + apply N.ltb_lt in H. lia.
    + apply andb_true_iff in H as [H _]. apply N.ltb_lt in H. lia.
  - destruct (c <? 0x110000) eqn:E2; [eauto|].
    exfalso. apply N.ltb_ge in E1, E2.
    apply orb_true_iff in H as [H | H].
    + apply N.ltb_lt in H. lia.
    + apply andb_true_iff in H as [_ H]. discriminate.
Qed.

Lemma encode_utf8_text (s : str) :
  text s = true -> exists b, encode_utf8 s = Some b.
Proof.
  induction s as [|c s IH]; simpl; [eauto|].
  rewrite andb_true_iff. intros [Hc Hs].
  destruct (utf8_char_scalar c Hc) as [b ->].
  destruct (IH Hs) as [bs ->]. eauto.
Qed.

Lemma text_app (a b : str) : text (a ++ b) = text a && text b.
Proof. apply forallb_app. Qed.

Lemma text_lstrip (s : str) : text s = true -> text (lstrip s) = true.
Proof.
  induction s as [|c s IH]; simpl; [auto|].
  destruct (isspace c); [|auto].
  rewrite andb_true_iff. intros [_ H]. auto.
Qed.

Lemma text_rev (s : str) : text (rev s) = text s.
Proof.
  induction s as [|c s IH]; simpl; [reflexivity|].
  rewrite text_app, IH. simpl. rewrite andb_true_r. apply andb_comm.
Qed.

Lemma text_strip (s : str) : text s = true -> text (strip s) = true.
Proof.
  intros H. unfold strip, rstrip. rewrite text_rev.
  apply text_lstrip. rewrite text_rev. now apply text_lstrip.
Qed.

Lemma text_form_field (form : list (str * str)) (k : str) :
  form_text form = true -> text (form_field form k) = true.
Proof.
  intros H. apply text_strip. unfold dict_get_default.
  destruct (dict_get form k) as [v|] eqn:G; [|reflexivity].
  apply dict_get_In in G. unfold form_text in H. rewrite forallb_forall in H.
  exact (H _ G).
Qed.

Lemma hex_digit_scalar (d : N) :
  d < 16 -> is_scalar (hex_digit d) = true.
Proof.
  intros H. unfold is_scalar, hex_digit.
  apply orb_true_iff. left. apply N.ltb_lt.
  destruct (d <? 10); lia.
Qed.

Lemma text_escape_char (c : N) :
  is_scalar c = true -> text (escape_char c) = true.
Proof.
  intros H. unfold escape_char.
  repeat match goal with
         | |- context [if ?b then _ else _] => destruct b eqn:?; try reflexivity
         end.
  - match goal with E : (c <? 32) = true |- _ => apply N.ltb_lt in E end.
    assert (Hs : N.shiftr c 4 < 16).
    { rewrite N.shiftr_div_pow2. apply N.Div0.div_lt_upper_bound.
      change (2 ^ 4) with 16. lia. }
    change (py "u00") with [117; 48; 48]. unfold text. cbn [app forallb].
    rewrite !hex_digit_scalar by (exact Hs || apply nibble_bound).
    reflexivity.
  - simpl. now rewrite H.
Qed.

Lemma text_encode_basestring (s : str) :
  text s = true -> text (encode_basestring s) = true.
Proof.
  intros H. unfold encode_basestring. rewrite !text_app.
  cut (text (flat_map escape_char s) = true); [intros ->; reflexivity|].
  induction s as [|c s IH]; [reflexivity|].
  simpl in H. apply andb_true_iff in H as [Hc Hs].
  cbn [flat_map]. rewrite text_app, text_escape_char, IH; auto.
Qed.

Lemma text_uint_chars (u : Decimal.uint) : text (uint_chars u) = true.
Proof. induction u; simpl; auto. Qed.

Lemma text_int_repr (n : Z) : text (int_repr n) = true.
Proof.
  unfold int_repr. destruct (Z.to_int n); simpl; apply text_uint_chars.
Qed.

Lemma text_join (sep : str) (parts : list str) :
  text sep = true -> Forall (fun p => text p = true) parts ->
  text (join sep parts) = true.
Proof.
  intros Hsep. induction 1 as [|p parts Hp Hparts IH]; [reflexivity|].
  destruct parts as [|q parts]; [exact Hp|].
  change (join sep (p :: q :: parts)) with (p ++ sep ++ join sep (q :: parts)).
  now rewrite !text_app, Hp, Hsep, IH.
Qed.

Lemma text_dumps (sort_keys : bool) (j : json) :
  json_text j = true -> text (dumps sort_keys j) = true.
Proof.
  induction j as [n|s|items IH] using json_induction; intros H.
  - apply text_int_repr.
  - now apply text_encode_basestring.
  - rewrite dumps_dict, !text_app.
    cbn [json_text] in H. rewrite forallb_forall in H. rewrite Forall_forall in IH.
    rewrite text_join; [reflexivity | reflexivity |].
    apply Forall_forall. intros p Hp.
    apply in_map_iff in Hp as [kv [<- Hkv]].
    assert (Hin : In kv items).
    { destruct sort_keys; [|exact Hkv].
      eapply Permutation_in; [apply sort_by_perm | exact Hkv]. }
    specialize (H _ Hin). apply andb_true_iff in H as [Hk Hv].
    rewrite !text_app, text_encode_basestring, (IH _ Hin) by assumption.
    reflexivity.
Qed.

(** Hashing text never raises. *)
Lemma compute_proof_hash_total (m : json) :
  json_text m = true -> exists h, compute_proof_hash m = inr h.
Proof.
  intros H. unfold compute_proof_hash.
  destruct (encode_utf8_text _ (text_dumps true m H)) as [b ->]. eauto.
Qed.

(** * Submission *)

Lemma create_metadata_form_data (form : list (str * str)) :
  create_metadata (form_data form) =
  inr (JDict
    [ (py "rwa_version", JInt 1);
      (py "standard", JStr (py "hashirwa-demo"));
      (py "issuer", JStr (form_field form (py "producer_name")));
      (py "jurisdiction", JDict
        [ (py "country", JStr (py "Japan"));
          (py "prefecture", JStr (form_field form (py "prefecture"))) ]);
      (py "asset", JDict
        [ (py "category", JStr (py "Agriculture"));
          (py "product", JStr (form_field form (py "product")));
          (py "certification", JStr (form_field form (py "certification")));
          (py "lot_size", JStr (form_field form (py "lot_size")));
          (py "harvest_date", JStr (form_field form (py "harvest_date"))) ]);
      (py "contacts", JDict
        [ (py "email", JStr (form_field form (py "contact_email")));
          (py "wallet", JStr (form_field form (py "wallet_address"))) ]);
      (py "notes", JStr (form_field form (py "notes"))) ]).
Proof.
  unfold form_data.
  generalize (form_field form (py "producer_name")),
    (form_field form (py "prefecture")), (form_field form (py "product")),
    (form_field form (py "certification")), (form_field form (py "lot_size")),
    (form_field form (py "harvest_date")), (form_field form (py "contact_email")),
    (form_field form (py "wallet_address")), (form_field form (py "notes")).
  intros. vm_compute. reflexivity.
Qed.

Lemma form_metadata_text (form : list (str * str)) (m : json) :
  form_text form = true -> create_metadata (form_data form) = inr m ->
  json_text m = true.
Proof.
  intros H. rewrite create_metadata_form_data. intros [= <-].
  cbn [json_text forallb fst snd].
  rewrite !text_form_field by exact H. reflexivity.
Qed.

(** What a confirmed submission has done. *)
Lemma onboard_confirmed (form : list (str * str)) (item_id : Z) (clock : datetime)
    (db db' : list item) (it : item) :
  onboard POST form item_id clock db = (Confirmation it, db') ->
  db' = db ++ [it]
  /\ id it = item_id
  /\ status it = py "pending"
  /\ timestamps it = {| created_at := isoformat clock; updated_at := isoformat clock |}
  /\ create_metadata (form_data form) = inr (metadata it)
  /\ compute_proof_hash (metadata it) = inr (hash (proof it))
  /\ sim_testnet_txid (proof it) = py "testnet:" ++ firstn 16 (hash (proof it)).
Proof.
  unfold onboard.
  destruct (create_metadata (form_data form)) as [e|m]; cbn [bind];
    [intros [=]|].
  destruct (compute_proof_hash m) as [e|h] eqn:Eh; cbn [bind ret];
    [intros [=]|].
  intros [= <- <-]. cbn. auto 10.
Qed.

(** A form of text is always confirmed. *)
Lemma onboard_succeeds (form : list (str * str)) (item_id : Z) (clock : datetime)
    (db : list item) :
  form_text form = true ->
  exists it, onboard POST form item_id clock db = (Confirmation it, db ++ [it]).
Proof.
  intros H. unfold onboard.
  destruct (create_metadata (form_data form)) as [e|m] eqn:Em;
    [rewrite create_metadata_form_data in Em; discriminate|].
  destruct (compute_proof_hash_total m (form_metadata_text _ _ H Em)) as [h Eh].
  cbn [bind]. rewrite Eh. cbn [bind ret]. eauto.
Qed.

Lemma create_metadata_constants (fd : list (str * str)) (m : json) :
  create_metadata fd = inr m ->
  json_path m [py "rwa_version"] = Some (JInt 1)
  /\ json_path m [py "standard"] = Some (JStr (py "hashirwa-demo"))
  /\ json_path m [py "jurisdiction"; py "country"] = Some (JStr (py "Japan"))
  /\ json_path m [py "asset"; py "category"] = Some (JStr (py "Agriculture")).
Proof.
  unfold create_metadata.
  repeat match goal with
         | |- context [dict_index fd ?k] =>
             destruct (dict_index fd k) as [?|?]; cbn [bind]; [intros [=]|]
         end.
  generalize (dict_get_default fd (py "contact_email") []),
    (dict_get_default fd (py "wallet_address") []),
    (dict_get_default fd (py "notes") []).
  intros ? ? ? [= <-]. vm_compute. auto.
Qed.

(** * Review *)

Lemma update_first_nth (p : item -> bool) (f : item -> item) (l : list item) :
  forall i x, nth_error l i = Some x ->
  exists x', nth_error (update_first p f l) i = Some x'
    /\ (x' = x \/ x' = f x)
    /\ (p x = true ->
        (forall j y, (j < i)%nat -> nth_error l j = Some y -> p y = false) ->
        x' = f x).
Proof.
  induction l as [|y l IH]; intros [|i] x H; simpl in H; try discriminate.
  - injection H as ->. simpl. destruct (p x) eqn:E; simpl.
    + exists (f x). auto.
    + exists x. repeat split; auto. congruence.
  - simpl. destruct (p y) eqn:E; simpl.
    + exists x. repeat split; auto. intros _ First.
      specialize (First 0%nat y (Nat.lt_0_succ i) eq_refl). congruence.
    + destruct (IH i x H) as [x' [A [B C]]]. exists x'. repeat split; auto.
      intros Hp First. apply C; [exact Hp|]. intros j z Hj Hz.
      apply (First (S j) z); [lia | exact Hz].
Qed.

Lemma find_absent (p : item -> bool) (l : list item) :
  (forall x, In x l -> p x = false) -> find p l = None.
Proof.
  induction l as [|y l IH]; intros H; simpl; [reflexivity|].
  rewrite (H y) by now left. apply IH. intros x Hx. apply H. now right.
Qed.

(** The store an admin call leaves, whatever the key and the id: every
    record stays at its place, either as it was or with the call's status
    and time; the first record with the id gets them when the key is
    right. *)
Lemma admin_call_nth (key_ok : bool) (item_id : Z) (target now : str)
    (db : list item) (i : nat) (it : item) :
  let wanted x := (id x =? item_id)%Z in
  let db' :=
    if key_ok then
      match find wanted db with
      | Some _ => update_first wanted (set_status target now) db
      | None => db
      end
    else db in
  nth_error db i = Some it ->
  exists it', nth_error db' i = Some it'
    /\ (it' = it \/ it' = set_status target now it)
    /\ (key_ok = true -> id it = item_id ->
        (forall j x, (j < i)%nat -> nth_error db j = Some x -> id x <> item_id) ->
        it' = set_status target now it).
Proof.
  intros wanted db' H. subst db'.
  destruct (update_first_nth wanted (set_status target now) db i it H)
    as [it' [A [B C]]].
  assert (Hfirst : id it = item_id ->
            (forall j x, (j < i)%nat -> nth_error db j = Some x -> id x <> item_id) ->
            it' = set_status target now it).
  { intros Hid First. apply C.
    - unfold wanted. now apply Z.eqb_eq.
    - intros j y Hj Hy. unfold wanted. apply Z.eqb_neq. eauto. }
  destruct key_ok.
  - destruct (find wanted db) as [w|] eqn:F.
    + exists it'. auto.
    + exists it. repeat split; auto. intros _ Hid _. exfalso.
      pose proof (find_none _ _ F it (nth_error_In _ _ H)) as N.
      unfold wanted in N. apply Z.eqb_neq in N. contradiction.
  - exists it. repeat split; auto. discriminate.
Qed.

Lemma admin_approve_store (ADMIN_KEY admin_key : str) (item_id : Z) (clock : datetime)
    (db : list item) :
  snd (admin_approve ADMIN_KEY admin_key item_id clock db) =
  if str_eqb admin_key ADMIN_KEY then
    match find (fun x => (id x =? item_id)%Z) db with
    | Some _ =>
        update_first (fun x => (id x =? item_id)%Z)
          (set_status (py "approved") (isoformat clock)) db
    | None => db
    end
  else db.
Proof.
  unfold admin_approve. destruct (str_eqb admin_key ADMIN_KEY); cbn [negb];
    [destruct (find _ db)|]; reflexivity.
Qed.

Lemma admin_reject_store (ADMIN_KEY admin_key : str) (item_id : Z) (clock : datetime)
    (db : list item) :
  snd (admin_reject ADMIN_KEY admin_key item_id clock db) =
  if str_eqb admin_key ADMIN_KEY then
    match find (fun x => (id x =? item_id)%Z) db with
    | Some _ =>
        update_first (fun x => (id x =? item_id)%Z)
          (set_status (py "rejected") (isoformat clock)) db
    | None => db
    end
  else db.
Proof.
  unfold admin_reject. destruct (str_eqb admin_key ADMIN_KEY); cbn [negb];
    [destruct (find _ db)|]; reflexivity.
Qed.

Lemma update_first_length (p : item -> bool) (f : item -> item)
    (l : list item) :
  List.length (update_first p f l) = List.length l.
Proof.
  induction l as [|x l IH]; simpl; [reflexivity|].
  destruct (p x); simpl; [reflexivity | now rewrite IH].
Qed.

(** The first element that passes is the one found and the one changed;
    what stands before and after it stays. *)
Lemma update_first_split (p : item -> bool) (f : item -> item)
    (before after : list item) (it : item) :
  (forall x, In x before -> p x = false) -> p it = true ->
  find p (before ++ it :: after) = Some it
  /\ update_first p f (before ++ it :: after) = before ++ f it :: after.
Proof.
  intros None_before Passes.
  induction before as [|x before IH]; simpl.
  - rewrite Passes. auto.
  - rewrite (None_before x) by now left.
    destruct IH as [F U]; [intros y Hy; apply None_before; now right|].
    rewrite F, U. auto.
Qed.

(** A record that is pending after an admin call was there, the same,
    before the call. *)
Lemma admin_call_pending (key_ok : bool) (item_id : Z) (target now : str)
    (db : list item) (i : nat) (it' : item) :
  let wanted x := (id x =? item_id)%Z in
  let db' :=
    if key_ok then
      match find wanted db with
      | Some _ => update_first wanted (set_status target now) db
      | None => db
      end
    else db in
  target <> py "pending" ->
  nth_error db' i = Some it' -> status it' = py "pending" ->
  nth_error db i = Some it'.
Proof.
  intros wanted db' T H P.
  assert (L : List.length db' = List.length db).
  { subst db'. destruct key_ok; [|reflexivity].
    destruct (find wanted db); [apply update_first_length | reflexivity]. }
  destruct (nth_error db i) as [it|] eqn:E.
  - destruct (admin_call_nth key_ok item_id target now db i it E)
      as [x [A [B _]]].
    fold wanted in A. fold db' in A. rewrite H in A. injection A as <-.
    destruct B as [-> | ->]; [reflexivity|].
    cbn [set_status status] in P. contradiction.
  - apply nth_error_None in E. rewrite <- L in E.
    apply nth_error_None in E. congruence.
Qed.

(** * Listings *)

Lemma filter_status_In (s : str) (db : list item) (it : item) :
  In it (filter (has_status s) db) <-> In it db /\ status it = s.
Proof.
  rewrite filter_In. unfold has_status. now rewrite str_eqb_eq.
Qed.

(** The pending queue that the admin page is built from: where its
    records come from and how their [created_at] texts are ordered. *)
Lemma pending_queue_sorted_texts (ADMIN_KEY : str) (db : list item) :
  exists pending_items approved_items,
    admin_items ADMIN_KEY ADMIN_KEY db = Some (pending_items, approved_items)
    /\ (forall it, In it pending_items -> In it db)
    /\ StronglySorted (key_le (fun x => created_at (timestamps x)))
         pending_items.
Proof.
  unfold admin_items. rewrite str_eqb_refl. cbn [negb].
  do 2 eexists. split; [reflexivity|]. split; [|apply list_sort_ascending].
  intros it Hin.
  eapply Permutation_in in Hin; [|apply list_sort_perm].
  now apply filter_In in Hin.
Qed.

(** * Every timestamp of a reachable store was written by [isoformat] *)

Lemma stamped_set_status (s : str) (clock : datetime) (it : item) :
  valid_datetime clock = true -> stamped it ->
  stamped (set_status s (isoformat clock) it).
Proof.
  intros V (c & u & Vc & _ & Ec & _).
  exists c, clock. cbn. auto.
Qed.

Lemma Forall_update_first (P : item -> Prop) (p : item -> bool)
    (f : item -> item) (l : list item) :
  (forall x, P x -> P (f x)) -> Forall P l -> Forall P (update_first p f l).
Proof.
  intros Pf. induction 1 as [|x l Hx Hl IH]; simpl; [constructor|].
  destruct (p x); constructor; auto.
Qed.

Lemma seed_loop_stamped (clock : datetime) (seeds : list (list (str * str))) :
  valid_datetime clock = true ->
  forall ids items db,
    seed_loop seeds ids (isoformat clock) items = inr db ->
    Forall stamped items -> Forall stamped db.
Proof.
  intros V. induction seeds as [|seed seeds IH]; intros ids items db; simpl.
  - intros [= <-]. auto.
  - destruct (create_metadata seed) as [e|m]; cbn [bind]; [discriminate|].
    destruct (compute_proof_hash m) as [e|h]; cbn [bind]; [discriminate|].
    intros E F. apply (IH _ _ _ E).
    apply Forall_app. split; [exact F|].
    constructor; [|constructor].
    exists clock, clock. cbn. auto.
Qed.

Lemma onboard_store (form : list (str * str)) (item_id : Z) (clock : datetime)
    (db : list item) :
  snd (onboard POST form item_id clock db) = db
  \/ exists it,
       onboard POST form item_id clock db = (Confirmation it, db ++ [it]).
Proof.
  unfold onboard.
  destruct (create_metadata (form_data form)) as [e|m]; cbn [bind];
    [now left|].
  destruct (compute_proof_hash m) as [e|h]; cbn [bind ret]; [now left|].
  right. eauto.
Qed.

Lemma step_stamped (ADMIN_KEY : str) (db db' : list item) :
  step ADMIN_KEY db db' -> Forall stamped db -> Forall stamped db'.
Proof.
  intros [form item_id clock s V | admin_key item_id clock s V
          | admin_key item_id clock s V] F.
  - destruct (onboard_store form item_id clock s) as [-> | [it E]];
      [exact F|].
    rewrite E. cbn [snd]. apply Forall_app. split; [exact F|].
    constructor; [|constructor].
    apply onboard_confirmed in E as (_ & _ & _ & T & _).
    exists clock, clock. rewrite T. cbn. auto.
  - rewrite admin_approve_store.
    destruct (str_eqb admin_key ADMIN_KEY); [|exact F].
    destruct (find _ s); [|exact F].
    apply Forall_update_first; [|exact F].
    intros x. now apply stamped_set_status.
  - rewrite admin_reject_store.
    destruct (str_eqb admin_key ADMIN_KEY); [|exact F].
    destruct (find _ s); [|exact F].
    apply Forall_update_first; [|exact F].
    intros x. now apply stamped_set_status.
Qed.

Lemma reachable_stamped (ADMIN_KEY : str) (db : list item) :
  reachable ADMIN_KEY db -> Forall stamped db.
Proof.
  induction 1 as [ids clock db V E | db db' R IH S].
  - unfold seed_data in E. eapply seed_loop_stamped; eauto.
  - eapply step_stamped; eauto.
Qed.

(** * The listings of a reachable store, read as times *)

Lemma StronglySorted_weaken_In {A} (R S : A -> A -> Prop) (l : list A) :
  (forall a b, In a l -> In b l -> R a b -> S a b) ->
  StronglySorted R l -> StronglySorted S l.
Proof.
  intros RS H. induction H as [|x l Hl IH Hx]; constructor.
  - apply IH. intros a b Ha Hb. apply RS; now right.
  - rewrite Forall_forall in *. intros b Hb.
    apply RS; [now left | now right | now apply Hx].
Qed.

(** In a reachable store the pending queue is in the order of submission
    times: each record was created at a time not after that of the records
    that follow it. *)
Lemma reachable_pending_chronological (ADMIN_KEY : str) (db : list item) :
  reachable ADMIN_KEY db ->
  exists pending_items approved_items,
    admin_items ADMIN_KEY ADMIN_KEY db = Some (pending_items, approved_items)
    /\ StronglySorted
         (fun a b =>
            exists ta tb,
              valid_datetime ta = true /\ valid_datetime tb = true
              /\ created_at (timestamps a) = isoformat ta
              /\ created_at (timestamps b) = isoformat tb
              /\ datetime_leb ta tb = true)
         pending_items.
Proof.
  intros R. pose proof (reachable_stamped _ _ R) as F.
  rewrite Forall_forall in F.
  destruct (pending_queue_sorted_texts ADMIN_KEY db)
    as (p & a & E & In_db & Sorted_p).
  exists p, a. split; [exact E|].
  eapply StronglySorted_weaken_In; [|exact Sorted_p].
  intros x y Hx Hy L.
  destruct (F x (In_db _ Hx)) as (cx & _ & Vx & _ & Ex & _).
  destruct (F y (In_db _ Hy)) as (cy & _ & Vy & _ & Ey & _).
  exists cx, cy. repeat (split; [assumption|]).
  rewrite <- isoformat_leb by assumption. now rewrite <- Ex, <- Ey.
Qed.

(** * The properties of the specification *)

(** C1. Two metadata values with the same content at every level of
    nesting have the same proof hash, whatever the order in which their
    keys were inserted: the hash depends on the content only. *)
Theorem proof_hash_order_independent (m1 m2 : json) :
  wf_json m1 = true -> wf_json m2 = true -> py_eq m1 m2 = true ->
  compute_proof_hash m1 = compute_proof_hash m2.
Proof.
  intros W1 W2 E. unfold compute_proof_hash.
  now rewrite (dumps_sorted_py_eq m1 m2 W1 W2 E).
Qed.

Lemma proof_hash_order_independent_witness :
  wf_json scenario_metadata = true
  /\ wf_json scenario_metadata_reordered = true
  /\ py_eq scenario_metadata scenario_metadata_reordered = true
  /\ compute_proof_hash scenario_metadata
     = compute_proof_hash scenario_metadata_reordered.
Proof.
  assert (W1 : wf_json scenario_metadata = true) by (vm_compute; reflexivity).
  assert (W2 : wf_json scenario_metadata_reordered = true)
    by (vm_compute; reflexivity).
  assert (E : py_eq scenario_metadata scenario_metadata_reordered = true)
    by (vm_compute; reflexivity).
  split; [exact W1|]. split; [exact W2|]. split; [exact E|].
  exact (proof_hash_order_independent _ _ W1 W2 E).
Defined.

(** Without [sort_keys] the two insertion orders give different texts. *)
Example insertion_order_shows_unsorted :
  dumps false scenario_metadata <> dumps false scenario_metadata_reordered.
Proof. intros H. vm_compute in H. discriminate. Qed.

(** C5. The proof hash of a metadata value is 64 lower-case hexadecimal
    characters, and the simulated transaction id stored with it is
    ["testnet:"] followed by the first 16 characters of that hash. *)
Theorem proof_hash_and_txid_format (m : json) :
  json_text m = true ->
  exists h,
    compute_proof_hash m = inr h
    /\ List.length h = 64%nat
    /\ forallb is_lower_hex h = true
    /\ forall form item_id clock db it db',
         onboard POST form item_id clock db = (Confirmation it, db') ->
         metadata it = m ->
         hash (proof it) = h
         /\ sim_testnet_txid (proof it) = py "testnet:" ++ firstn 16 h.
Proof.
  intros T. destruct (compute_proof_hash_total m T) as [h Eh].
  destruct (compute_proof_hash_format m h Eh) as [L X].
  exists h. split; [exact Eh|]. split; [exact L|]. split; [exact X|].
  intros form item_id clock db it db' Hc Hm.
  apply onboard_confirmed in Hc as (_ & _ & _ & _ & _ & Hh & Ht).
  rewrite Hm, Eh in Hh. injection Hh as Hh.
  split; [now symmetry | now rewrite Hh].
Qed.

Lemma proof_hash_and_txid_format_witness :
  json_text scenario_metadata = true
  /\ exists h it db',
       compute_proof_hash scenario_metadata = inr h
       /\ List.length h = 64%nat
       /\ forallb is_lower_hex h = true
       /\ onboard POST scenario_form 42 (Datetime 2024 1 1 10 0 0 0) []
          = (Confirmation it, db')
       /\ hash (proof it) = h
       /\ sim_testnet_txid (proof it) = py "testnet:" ++ firstn 16 h.
Proof.
  assert (T : json_text scenario_metadata = true) by (vm_compute; reflexivity).
  split; [exact T|].
  destruct (proof_hash_and_txid_format scenario_metadata T)
    as [h [Eh [L [X P]]]].
  destruct (onboard POST scenario_form 42 (Datetime 2024 1 1 10 0 0 0) [])
    as [r db'] eqn:E.
  pose proof E as V. vm_compute in V. injection V as <- <-.
  destruct (P _ _ _ _ _ _ E) as [Ph Pt]; [vm_compute; reflexivity|].
  exists h. eexists. eexists.
  split; [exact Eh|]. split; [exact L|]. split; [exact X|].
  split; [reflexivity|]. split; [exact Ph | exact Pt].
Defined.

(** C6. The record of a confirmed submission is pending, its two
    timestamps are the same, and it is the one record added to the
    store. *)
Theorem submitted_record_is_pending (form : list (str * str)) (item_id : Z)
    (clock : datetime) (db db' : list item) (it : item) :
  onboard POST form item_id clock db = (Confirmation it, db') ->
  status it = py "pending"
  /\ created_at (timestamps it) = updated_at (timestamps it)
  /\ db' = db ++ [it].
Proof.
  intros H. apply onboard_confirmed in H as (Hdb & _ & Hs & Ht & _).
  rewrite Ht. auto.
Qed.

Lemma submitted_record_is_pending_witness :
  exists it,
    onboard POST scenario_form 42 (Datetime 2024 1 1 10 0 0 0) seeded_store
    = (Confirmation it, seeded_store ++ [it])
    /\ status it = py "pending"
    /\ created_at (timestamps it) = updated_at (timestamps it).
Proof.
  destruct (onboard POST scenario_form 42 (Datetime 2024 1 1 10 0 0 0) seeded_store)
    as [r db'] eqn:E.
  pose proof E as V. vm_compute in V. injection V as <- <-.
  destruct (submitted_record_is_pending _ _ _ _ _ _ E) as [S [T _]].
  eexists. split; [reflexivity|]. split; [exact S | exact T].
Defined.

(** C10. Whatever the form holds, the metadata built for a submission has
    [rwa_version] 1, [standard] "hashirwa-demo", [jurisdiction.country]
    "Japan" and [asset.category] "Agriculture"; no form field reaches
    them. *)
Theorem metadata_constants_fixed (form : list (str * str)) (item_id : Z)
    (clock : datetime) (db : list item) :
  exists m,
    create_metadata (form_data form) = inr m
    /\ json_path m [py "rwa_version"] = Some (JInt 1)
    /\ json_path m [py "standard"] = Some (JStr (py "hashirwa-demo"))
    /\ json_path m [py "jurisdiction"; py "country"] = Some (JStr (py "Japan"))
    /\ json_path m [py "asset"; py "category"]
       = Some (JStr (py "Agriculture"))
    /\ match fst (onboard POST form item_id clock db) with
       | Confirmation it => metadata it = m
       | ServerError e => e = UnicodeEncodeError
       | _ => False
       end.
Proof.
  destruct (create_metadata (form_data form)) as [e|m] eqn:Em;
    [rewrite create_metadata_form_data in Em; discriminate|].
  exists m. split; [reflexivity|].
  destruct (create_metadata_constants _ _ Em) as (A & B & C & D).
  repeat (split; [assumption|]).
  unfold onboard. rewrite Em. cbn [bind].
  unfold compute_proof_hash. destruct (encode_utf8 (dumps true m)); reflexivity.
Qed.

(** C7. With a key that is not the admin key, approve and reject answer
    403 and leave the whole store, and so the target record's status and
    [updated_at], as they were. *)
Theorem unauthorized_call_changes_nothing (ADMIN_KEY admin_key : str)
    (item_id : Z) (clock : datetime) (db : list item) :
  admin_key <> ADMIN_KEY ->
  admin_approve ADMIN_KEY admin_key item_id clock db = (Abort 403, db)
  /\ admin_reject ADMIN_KEY admin_key item_id clock db = (Abort 403, db).
Proof.
  intros H. apply str_eqb_neq in H.
  unfold admin_approve, admin_reject. rewrite H. split; reflexivity.
Qed.

Lemma unauthorized_call_changes_nothing_witness :
  py "letmein" <> default_admin_key
  /\ admin_approve default_admin_key (py "letmein") 104
       (Datetime 2024 1 4 12 0 0 0) submitted_store
     = (Abort 403, submitted_store)
  /\ admin_reject default_admin_key (py "letmein") 104
       (Datetime 2024 1 4 12 0 0 0) submitted_store
     = (Abort 403, submitted_store).
Proof.
  assert (N : py "letmein" <> default_admin_key)
    by (intros H; vm_compute in H; discriminate).
  split; [exact N|].
  exact (unauthorized_call_changes_nothing default_admin_key (py "letmein") 104
           (Datetime 2024 1 4 12 0 0 0) submitted_store N).
Defined.

(** C4. With the admin key and an id that no record has, approve and
    reject redirect to the admin page and leave the store as it was: no
    record changes and none is added. *)
Theorem unknown_id_is_ignored (ADMIN_KEY : str) (item_id : Z) (clock : datetime)
    (db : list item) :
  (forall it, In it db -> id it <> item_id) ->
  admin_approve ADMIN_KEY ADMIN_KEY item_id clock db = (RedirectAdmin ADMIN_KEY, db)
  /\ admin_reject ADMIN_KEY ADMIN_KEY item_id clock db
     = (RedirectAdmin ADMIN_KEY, db).
Proof.
  intros H.
  assert (F : find (fun x => (id x =? item_id)%Z) db = None).
  { apply find_absent. intros x Hx. apply Z.eqb_neq. now apply H. }
  unfold admin_approve, admin_reject.
  rewrite str_eqb_refl, F. split; reflexivity.
Qed.

Lemma unknown_id_is_ignored_witness :
  (forall it, In it submitted_store -> id it <> 999999%Z)
  /\ admin_approve default_admin_key default_admin_key 999999
       (Datetime 2024 1 4 12 0 0 0) submitted_store
     = (RedirectAdmin default_admin_key, submitted_store)
  /\ admin_reject default_admin_key default_admin_key 999999
       (Datetime 2024 1 4 12 0 0 0) submitted_store
     = (RedirectAdmin default_admin_key, submitted_store).
Proof.
  assert (N : forall it, In it submitted_store -> id it <> 999999%Z).
  { intros it Hin. unfold submitted_store in Hin. cbn [In] in Hin.
    repeat (destruct Hin as [<- | Hin]; [cbn [id]; discriminate|]).
    destruct Hin. }
  split; [exact N|].
  exact (unknown_id_is_ignored default_admin_key 999999
           (Datetime 2024 1 4 12 0 0 0) submitted_store N).
Defined.

(** C8. The pending queue that [admin] computes with the admin key (lines
    531 and 535; the page is built from it afterwards) holds exactly the
    records of the store whose status is "pending", in non-decreasing
    order of [created_at]: in the order of the texts, and so in the order
    of the times they write. *)
Theorem pending_queue_sorted (ADMIN_KEY : str) (db : list item) :
  exists pending_items approved_items,
    admin_items ADMIN_KEY ADMIN_KEY db = Some (pending_items, approved_items)
    /\ Permutation pending_items (filter (has_status (py "pending")) db)
    /\ (forall it,
          In it pending_items <-> In it db /\ status it = py "pending")
    /\ StronglySorted (key_le (fun x => created_at (timestamps x)))
         pending_items
    /\ StronglySorted
         (fun a b =>
            not_after (created_at (timestamps a)) (created_at (timestamps b)))
         pending_items.
Proof.
  unfold admin_items. rewrite str_eqb_refl. cbn [negb].
  do 2 eexists. split; [reflexivity|].
  assert (P : Permutation
                (list_sort (fun x => created_at (timestamps x)) false
                   (filter (has_status (py "pending")) db))
                (filter (has_status (py "pending")) db))
    by apply list_sort_perm.
  split; [exact P|]. split.
  - intros it. rewrite <- filter_status_In.
    split; apply Permutation_in; [exact P | symmetry; exact P].
  - split; [apply list_sort_ascending|].
    eapply StronglySorted_weaken; [|apply list_sort_ascending].
    intros a b. apply str_leb_not_after.
Qed.

(** C9. The approved list that [market] computes (lines 638-639), which
    is also the one that [admin] computes with the admin key (lines 532
    and 536), holds exactly the records of the store whose status is
    "approved", in non-increasing order of [updated_at]: in the order of
    the texts, and so in the order of the times they write.  The pages are
    built from these lists afterwards. *)
Theorem approved_listing_sorted (ADMIN_KEY : str) (db : list item) :
  let approved_items := market_items db in
  (exists pending_items,
     admin_items ADMIN_KEY ADMIN_KEY db = Some (pending_items, approved_items))
  /\ Permutation approved_items (filter (has_status (py "approved")) db)
  /\ (forall it,
        In it approved_items <-> In it db /\ status it = py "approved")
  /\ StronglySorted
       (fun a b => key_le (fun x => updated_at (timestamps x)) b a)
       approved_items
  /\ StronglySorted
       (fun a b =>
          not_after (updated_at (timestamps b)) (updated_at (timestamps a)))
       approved_items.
Proof.
  cbv zeta. unfold market_items, admin_items.
  rewrite str_eqb_refl. cbn [negb].
  split; [eexists; reflexivity|].
  assert (P : Permutation
                (list_sort (fun x => updated_at (timestamps x)) true
                   (filter (has_status (py "approved")) db))
                (filter (has_status (py "approved")) db))
    by apply list_sort_perm.
  split; [exact P|]. split.
  - intros it. rewrite <- filter_status_In.
    split; apply Permutation_in; [exact P | symmetry; exact P].
  - split; [apply list_sort_descending|].
    eapply StronglySorted_weaken; [|apply list_sort_descending].
    intros a b. apply str_leb_not_after.
Qed.

(** C3, as the code has it.  An admin call reads no status and changes at
    most one record.  With another key, or when no record has the id, it
    leaves the store as it was.  With the admin key it changes the first
    record that has the id and nothing else: whatever its status was, that
    record gets the call's own status ("approved" for approve, "rejected"
    for reject) and the current time as [updated_at], and keeps its id,
    metadata, proof and [created_at]; the records before it and after it
    are left as they were.  No call makes a record pending: a record that
    is pending after the call was there, the same, before it.  So approved
    and rejected are not final, a status never goes back to "pending", and
    repeating a call keeps the status. *)
Theorem status_set_by_admin_calls (ADMIN_KEY admin_key : str) (item_id : Z)
    (clock : datetime) (db : list item) :
  let approved := snd (admin_approve ADMIN_KEY admin_key item_id clock db) in
  let rejected := snd (admin_reject ADMIN_KEY admin_key item_id clock db) in
  let restamped target it it' :=
    status it' = target
    /\ updated_at (timestamps it') = isoformat clock
    /\ id it' = id it /\ metadata it' = metadata it /\ proof it' = proof it
    /\ created_at (timestamps it') = created_at (timestamps it) in
  (admin_key <> ADMIN_KEY \/ (forall x, In x db -> id x <> item_id) ->
   approved = db /\ rejected = db)
  /\ (forall before it after,
        admin_key = ADMIN_KEY ->
        db = before ++ it :: after ->
        (forall x, In x before -> id x <> item_id) ->
        id it = item_id ->
        exists a r,
          approved = before ++ a :: after
          /\ restamped (py "approved") it a
          /\ rejected = before ++ r :: after
          /\ restamped (py "rejected") it r)
  /\ (forall i it',
        nth_error approved i = Some it' \/ nth_error rejected i = Some it' ->
        status it' = py "pending" ->
        nth_error db i = Some it').
Proof.
  cbv zeta. rewrite admin_approve_store, admin_reject_store.
  split; [|split].
  - intros [K | Absent].
    + apply str_eqb_neq in K. rewrite K. auto.
    + rewrite (find_absent (fun x => (id x =? item_id)%Z) db).
      * destruct (str_eqb admin_key ADMIN_KEY); auto.
      * intros x Hx. apply Z.eqb_neq. now apply Absent.
  - intros before it after -> -> None_before Hid.
    rewrite str_eqb_refl.
    assert (NB : forall x, In x before -> (id x =? item_id)%Z = false)
      by (intros x Hx; apply Z.eqb_neq; now apply None_before).
    assert (Hit : (id it =? item_id)%Z = true) by now apply Z.eqb_eq.
    destruct (update_first_split (fun x => (id x =? item_id)%Z)
                (set_status (py "approved") (isoformat clock))
                before after it NB Hit) as [F Ua].
    destruct (update_first_split (fun x => (id x =? item_id)%Z)
                (set_status (py "rejected") (isoformat clock))
                before after it NB Hit) as [_ Ur].
    rewrite F, Ua, Ur.
    exists (set_status (py "approved") (isoformat clock) it),
           (set_status (py "rejected") (isoformat clock) it).
    cbn [set_status status id metadata proof timestamps created_at updated_at].
    repeat split; reflexivity.
  - intros i it' [H | H] P.
    + apply (admin_call_pending (str_eqb admin_key ADMIN_KEY) item_id
               (py "approved") (isoformat clock) db i it');
        [discriminate | exact H | exact P].
    + apply (admin_call_pending (str_eqb admin_key ADMIN_KEY) item_id
               (py "rejected") (isoformat clock) db i it');
        [discriminate | exact H | exact P].
Qed.

Lemma status_set_by_admin_calls_witness :
  exists it a,
    rejected_store = seeded_store ++ [it]
    /\ (forall x, In x seeded_store -> id x <> 104%Z)
    /\ id it = 104%Z
    /\ status it = py "rejected"
    /\ snd (admin_approve default_admin_key default_admin_key 104
              (Datetime 2024 1 4 12 0 0 0) rejected_store)
       = seeded_store ++ [a]
    /\ status a = py "approved"
    /\ created_at (timestamps a) = created_at (timestamps it).
Proof.
  destruct (nth_error rejected_store 3) as [it|] eqn:E;
    [|vm_compute in E; discriminate].
  pose proof E as V. vm_compute in V. injection V as <-.
  assert (D : rejected_store = seeded_store ++ [_]) by reflexivity.
  assert (N : forall x, In x seeded_store -> id x <> 104%Z).
  { intros x Hin. unfold seeded_store in Hin. cbn [In] in Hin.
    repeat (destruct Hin as [<- | Hin]; [cbn [id]; discriminate|]).
    destruct Hin. }
  destruct (status_set_by_admin_calls default_admin_key default_admin_key 104
              (Datetime 2024 1 4 12 0 0 0) rejected_store)
    as [_ [Changed _]].
  destruct (Changed seeded_store _ [] eq_refl D N eq_refl)
    as (a & r & A & (Sa & _ & _ & _ & _ & Ca) & _).
  eexists. exists a. split; [exact D|]. split; [exact N|].
  split; [reflexivity|]. split; [reflexivity|].
  split; [exact A|]. split; [exact Sa | exact Ca].
Defined.

(** A rejected record of a reachable store is approved by a later call:
    the status of a reviewed record is not final. *)
Lemma rejected_record_can_be_approved : ~ status_is_final default_admin_key.
Proof.
  intros Final.
  assert (R : reachable default_admin_key rejected_store).
  { apply reach_step with submitted_store.
    - apply reach_step with seeded_store.
      + apply reach_seed with [101; 102; 103]%Z (Datetime 2024 1 1 9 0 0 1);
          vm_compute; reflexivity.
      + replace submitted_store
          with (snd (onboard POST scenario_form 104
                       (Datetime 2024 1 2 10 0 0 0) seeded_store))
          by (vm_compute; reflexivity).
        apply step_onboard. reflexivity.
    - replace rejected_store
        with (snd (admin_reject default_admin_key default_admin_key 104
                     (Datetime 2024 1 3 11 30 0 250000) submitted_store))
        by (vm_compute; reflexivity).
      apply step_reject. reflexivity. }
  destruct (nth_error rejected_store 3) as [it|] eqn:E;
    [|vm_compute in E; discriminate].
  destruct (nth_error
              (snd (admin_approve default_admin_key default_admin_key 104
                      (Datetime 2024 1 4 12 0 0 0) rejected_store)) 3)
    as [it'|] eqn:E'; [|vm_compute in E'; discriminate].
  assert (P : status it <> py "pending").
  { vm_compute in E. injection E as <-. cbn [status]. discriminate. }
  destruct (Final _ R default_admin_key 104%Z (Datetime 2024 1 4 12 0 0 0)
              3%nat it it' E P) as [A _].
  specialize (A E').
  vm_compute in E, E'. injection E as <-. injection E' as <-.
  cbn [status] in A. discriminate.
Qed.

(** C2, as the code has it.  The handler checks nothing: a form of text is
    always confirmed and adds one pending record, in which each required
    field holds the trimmed value of the form, the empty string when the
    field is absent or blank. *)
Theorem incomplete_submission_is_stored (form : list (str * str))
    (item_id : Z) (clock : datetime) (db : list item) :
  form_text form = true ->
  exists it,
    onboard POST form item_id clock db = (Confirmation it, db ++ [it])
    /\ status it = py "pending"
    /\ json_path (metadata it) [py "issuer"]
       = Some (JStr (form_field form (py "producer_name")))
    /\ json_path (metadata it) [py "jurisdiction"; py "prefecture"]
       = Some (JStr (form_field form (py "prefecture")))
    /\ json_path (metadata it) [py "asset"; py "product"]
       = Some (JStr (form_field form (py "product")))
    /\ json_path (metadata it) [py "asset"; py "lot_size"]
       = Some (JStr (form_field form (py "lot_size")))
    /\ json_path (metadata it) [py "asset"; py "harvest_date"]
       = Some (JStr (form_field form (py "harvest_date"))).
Proof.
  intros T. destruct (onboard_succeeds form item_id clock db T) as [it E].
  exists it. split; [exact E|].
  apply onboard_confirmed in E as (_ & _ & S & _ & M & _).
  split; [exact S|].
  rewrite create_metadata_form_data in M. injection M as <-.
  generalize (form_field form (py "producer_name")),
    (form_field form (py "prefecture")), (form_field form (py "product")),
    (form_field form (py "certification")), (form_field form (py "lot_size")),
    (form_field form (py "harvest_date")), (form_field form (py "contact_email")),
    (form_field form (py "wallet_address")), (form_field form (py "notes")).
  intros. vm_compute. auto.
Qed.

Lemma incomplete_submission_is_stored_witness :
  form_text blank_producer_form = true
  /\ missing_required blank_producer_form = true
  /\ exists it,
       onboard POST blank_producer_form 105 (Datetime 2024 1 5 8 0 0 0)
         seeded_store
       = (Confirmation it, seeded_store ++ [it])
       /\ json_path (metadata it) [py "issuer"] = Some (JStr []).
Proof.
  assert (T : form_text blank_producer_form = true) by (vm_compute; reflexivity).
  split; [exact T|]. split; [vm_compute; reflexivity|].
  destruct (incomplete_submission_is_stored blank_producer_form 105
              (Datetime 2024 1 5 8 0 0 0) seeded_store T)
    as [it [E [_ [I _]]]].
  exists it. split; [exact E|]. exact I.
Defined.

(** A submission whose producer name is blank is confirmed and stored. *)
Lemma blank_producer_is_accepted : ~ submit_rejects_incomplete.
Proof.
  intros Rejects.
  destruct (Rejects blank_producer_form 105%Z (Datetime 2024 1 5 8 0 0 0) [])
    as [_ Same]; [vm_compute; reflexivity|].
  vm_compute in Same. discriminate.
Qed.

(** * Further properties of the code *)

(** ** Building the metadata *)

(** X2. [create_metadata] raises [KeyError] exactly when one of the six
    keys it indexes is missing, [certification] among them, and names the
    first one missing; otherwise it returns, and the three keys it reads
    with [get] default to the empty string. *)
Theorem create_metadata_key_errors (fd : list (str * str)) :
  match find (lacks fd) indexed_keys with
  | Some k => create_metadata fd = inl (KeyError k)
  | None =>
      exists m,
        create_metadata fd = inr m
        /\ json_path m [py "contacts"; py "email"]
           = Some (JStr (dict_get_default fd (py "contact_email") []))
        /\ json_path m [py "contacts"; py "wallet"]
           = Some (JStr (dict_get_default fd (py "wallet_address") []))
        /\ json_path m [py "notes"]
           = Some (JStr (dict_get_default fd (py "notes") []))
  end.
Proof.
  unfold create_metadata, dict_index, indexed_keys, lacks. cbn [find].
  repeat match goal with
         | |- context [dict_get fd ?k] =>
             lazymatch goal with
             | |- context [dict_get_default] => idtac
             end;
             destruct (dict_get fd k) as [?|]; cbn [bind raise ret];
             [|reflexivity]
         end.
  eexists. split; [reflexivity|].
  generalize (dict_get_default fd (py "contact_email") []),
    (dict_get_default fd (py "wallet_address") []),
    (dict_get_default fd (py "notes") []).
  intros. vm_compute. auto.
Qed.

(** ** Submission *)

(** X3. A submission is all or nothing: a POST either is confirmed and
    adds its one record at the end of the store, or fails on an
    unencodable field and leaves the store as it was; a GET never
    writes. *)
Theorem onboard_all_or_nothing (form : list (str * str)) (item_id : Z)
    (clock : datetime) (db : list item) :
  ((exists it,
      onboard POST form item_id clock db = (Confirmation it, db ++ [it]))
   \/ (onboard POST form item_id clock db = (ServerError UnicodeEncodeError, db)
       /\ form_text form = false))
  /\ onboard GET form item_id clock db = (OnboardForm, db).
Proof.
  split; [|reflexivity].
  destruct (form_text form) eqn:T.
  - left. now apply onboard_succeeds.
  - unfold onboard. rewrite create_metadata_form_data. cbn [bind].
    unfold compute_proof_hash.
    destruct (encode_utf8 _); cbn [bind ret]; eauto.
Qed.

Lemma lstrip_app_nonspace (a b : str) (c : N) :
  isspace c = false -> lstrip (a ++ c :: b) = lstrip a ++ c :: b.
Proof.
  intros H. induction a as [|x a IH]; simpl.
  - now rewrite H.
  - destruct (isspace x); [exact IH | reflexivity].
Qed.

Lemma lstrip_head (s : str) :
  lstrip s = [] \/ exists c r, lstrip s = c :: r /\ isspace c = false.
Proof.
  induction s as [|x s IH]; simpl; [now left|].
  destruct (isspace x) eqn:E; [exact IH|]. right. eauto.
Qed.

(** A trimmed string is empty, or starts and ends with a character that
    is no space. *)
Lemma strip_shape (s : str) :
  strip s = []
  \/ exists c u,
       strip s = c :: rev u /\ isspace c = false /\ lstrip (u ++ [c]) = u ++ [c].
Proof.
  unfold strip, rstrip.
  destruct (lstrip_head s) as [-> | (c & r & -> & Hc)]; [now left|].
  right. cbn [rev]. rewrite (lstrip_app_nonspace (rev r) [] c Hc).
  exists c, (lstrip (rev r)). rewrite rev_app_distr. cbn [rev app].
  split; [reflexivity|]. split; [exact Hc|].
  destruct (lstrip_head (rev r)) as [-> | (d & u & -> & Hd)].
  - cbn. now rewrite Hc.
  - cbn [app lstrip]. now rewrite Hd.
Qed.

(** Trimming a trimmed string changes nothing. *)
Lemma strip_idempotent (s : str) : strip (strip s) = strip s.
Proof.
  destruct (strip_shape s) as [-> | (c & u & -> & Hc & Hu)]; [reflexivity|].
  unfold strip, rstrip. cbn [lstrip]. rewrite Hc. cbn [rev].
  rewrite rev_involutive, Hu, rev_app_distr. reflexivity.
Qed.

(** X4. Every form field of a confirmed submission is stored trimmed:
    issuer, prefecture, product, certification, lot size, harvest date,
    email, wallet and notes hold strings that [strip] leaves as they
    are. *)
Theorem stored_fields_are_trimmed (form : list (str * str)) (item_id : Z)
    (clock : datetime) (db db' : list item) (it : item) :
  onboard POST form item_id clock db = (Confirmation it, db') ->
  Forall (fun path =>
            exists v, json_path (metadata it) path = Some (JStr v)
                      /\ strip v = v)
         form_paths.
Proof.
  intros H. apply onboard_confirmed in H as (_ & _ & _ & _ & M & _).
  rewrite create_metadata_form_data in M. injection M as <-.
  assert (T : forall k, strip (form_field form k) = form_field form k)
    by (intros k; apply strip_idempotent).
  unfold form_paths.
  repeat (constructor; [eexists; split; [reflexivity | apply T]|]).
  constructor.
Qed.

Lemma stored_fields_are_trimmed_witness :
  exists it db',
    onboard POST blank_producer_form 105 (Datetime 2024 1 5 8 0 0 0)
      seeded_store = (Confirmation it, db')
    /\ Forall (fun path =>
                 exists v, json_path (metadata it) path = Some (JStr v)
                           /\ strip v = v)
              form_paths.
Proof.
  destruct (onboard POST blank_producer_form 105 (Datetime 2024 1 5 8 0 0 0)
              seeded_store) as [r db'] eqn:E.
  pose proof E as V. vm_compute in V. injection V as <- <-.
  eexists. eexists. split; [reflexivity|].
  exact (stored_fields_are_trimmed _ _ _ _ _ _ E).
Defined.

(** ** What every request keeps *)

Lemma map_core_update_first (p : item -> bool) (f : item -> item)
    (l : list item) :
  (forall x, core (f x) = core x) ->
  map core (update_first p f l) = map core l.
Proof.
  intros Hf. induction l as [|x l IH]; simpl; [reflexivity|].
  destruct (p x); simpl; [now rewrite Hf | now rewrite IH].
Qed.

(** X5. The store is append-only: a request never removes or reorders
    records and never changes the id, metadata, proof or [created_at] of
    one; it adds at most one record, at the end. *)
Theorem requests_keep_records (ADMIN_KEY : str) (db db' : list item) :
  step ADMIN_KEY db db' ->
  exists added,
    map core db' = map core db ++ map core added
    /\ (List.length added <= 1)%nat.
Proof.
  intros [form item_id clock s V | admin_key item_id clock s V
          | admin_key item_id clock s V].
  - destruct (onboard_store form item_id clock s) as [-> | [it ->]].
    + exists []. rewrite app_nil_r. auto.
    + exists [it]. cbn [snd]. rewrite map_app. auto.
  - exists []. rewrite app_nil_r. split; [|auto].
    rewrite admin_approve_store.
    destruct (str_eqb admin_key ADMIN_KEY); [|reflexivity].
    destruct (find _ s); [|reflexivity].
    now apply map_core_update_first.
  - exists []. rewrite app_nil_r. split; [|auto].
    rewrite admin_reject_store.
    destruct (str_eqb admin_key ADMIN_KEY); [|reflexivity].
    destruct (find _ s); [|reflexivity].
    now apply map_core_update_first.
Qed.

Lemma requests_keep_records_witness :
  step default_admin_key submitted_store rejected_store
  /\ exists added,
       map core rejected_store = map core submitted_store ++ map core added
       /\ (List.length added <= 1)%nat.
Proof.
  assert (S : step default_admin_key submitted_store rejected_store).
  { replace rejected_store
      with (snd (admin_reject default_admin_key default_admin_key 104
                   (Datetime 2024 1 3 11 30 0 250000) submitted_store))
      by (vm_compute; reflexivity).
    apply step_reject. reflexivity. }
  split; [exact S|].
  exact (requests_keep_records default_admin_key _ _ S).
Defined.

(** A property of records that creation establishes and a review keeps
    holds of every record of a reachable store. *)
Lemma reachable_invariant (ADMIN_KEY : str) (P : item -> Prop) :
  (forall item_id s m h now,
     s = py "pending" \/ s = py "approved" ->
     compute_proof_hash m = inr h ->
     P {| id := item_id; status := s; metadata := m;
          proof := {| hash := h;
                      sim_testnet_txid := py "testnet:" ++ firstn 16 h |};
          timestamps := {| created_at := now; updated_at := now |} |}) ->
  (forall s now it,
     s = py "approved" \/ s = py "rejected" ->
     P it -> P (set_status s now it)) ->
  forall db, reachable ADMIN_KEY db -> Forall P db.
Proof.
  intros Hnew Hset.
  assert (Seed : forall seeds ids now items db,
             seed_loop seeds ids now items = inr db ->
             Forall P items -> Forall P db).
  { induction seeds as [|seed seeds IH]; intros ids now items db; simpl.
    - intros [= <-]. auto.
    - destruct (create_metadata seed) as [e|m]; cbn [bind]; [discriminate|].
      destruct (compute_proof_hash m) as [e|h] eqn:Eh; cbn [bind];
        [discriminate|].
      intros E F. apply (IH _ _ _ _ E).
      apply Forall_app. split; [exact F|].
      constructor; [|constructor]. apply Hnew; auto. }
  induction 1 as [ids clock db V E | db db' R IH S].
  - unfold seed_data in E. eapply Seed; eauto.
  - destruct S as [form item_id clock s V | admin_key item_id clock s V
                   | admin_key item_id clock s V].
    + unfold onboard.
      destruct (create_metadata (form_data form)) as [e|m]; cbn [bind];
        [exact IH|].
      destruct (compute_proof_hash m) as [e|h] eqn:Eh; cbn [bind ret snd];
        [exact IH|].
      apply Forall_app. split; [exact IH|].
      constructor; [|constructor]. apply Hnew; auto.
    + rewrite admin_approve_store.
      destruct (str_eqb admin_key ADMIN_KEY); [|exact IH].
      destruct (find _ s); [|exact IH].
      apply Forall_update_first; [|exact IH]. intros x. apply Hset. auto.
    + rewrite admin_reject_store.
      destruct (str_eqb admin_key ADMIN_KEY); [|exact IH].
      destruct (find _ s); [|exact IH].
      apply Forall_update_first; [|exact IH]. intros x. apply Hset. auto.
Qed.

Lemma rejected_store_reachable : reachable default_admin_key rejected_store.
Proof.
  apply reach_step with submitted_store.
  - apply reach_step with seeded_store.
    + apply reach_seed with [101; 102; 103]%Z (Datetime 2024 1 1 9 0 0 1);
        vm_compute; reflexivity.
    + replace submitted_store
        with (snd (onboard POST scenario_form 104
                     (Datetime 2024 1 2 10 0 0 0) seeded_store))
        by (vm_compute; reflexivity).
      apply step_onboard. reflexivity.
  - replace rejected_store
      with (snd (admin_reject default_admin_key default_admin_key 104
                   (Datetime 2024 1 3 11 30 0 250000) submitted_store))
      by (vm_compute; reflexivity).
    apply step_reject. reflexivity.
Qed.

(** X6. In every store a fresh installation can reach, the proof of each
    record is the one computed from its metadata: its hash is
    [compute_proof_hash] of the metadata, and its transaction id is
    "testnet:" and the first 16 characters of that hash. *)
Theorem reachable_proofs_match (ADMIN_KEY : str) (db : list item) :
  reachable ADMIN_KEY db -> Forall proof_matches db.
Proof.
  apply reachable_invariant.
  - intros item_id s m h now _ Eh. split; [exact Eh | reflexivity].
  - intros s now it _ H. exact H.
Qed.

Lemma reachable_proofs_match_witness :
  reachable default_admin_key rejected_store
  /\ Forall proof_matches rejected_store.
Proof.
  split; [exact rejected_store_reachable|].
  exact (reachable_proofs_match default_admin_key rejected_store
           rejected_store_reachable).
Defined.

(** X7. In every store a fresh installation can reach, the status of each
    record is "pending", "approved" or "rejected", so the badge that
    [listing] shows is "badge-" and the status: the default of its lookup
    is never used. *)
Theorem reachable_status_known (ADMIN_KEY : str) (db : list item) :
  reachable ADMIN_KEY db ->
  Forall (fun it =>
            known_status (status it)
            /\ status_badge (status it) = py "badge-" ++ status it) db.
Proof.
  apply reachable_invariant.
  - intros item_id s m h now [-> | ->] _; cbn [status]; unfold known_status;
      split; auto; reflexivity.
  - intros s now it [-> | ->] _; cbn [status set_status]; unfold known_status;
      split; auto; reflexivity.
Qed.

Lemma reachable_status_known_witness :
  reachable default_admin_key rejected_store
  /\ Forall (fun it =>
               known_status (status it)
               /\ status_badge (status it) = py "badge-" ++ status it)
            rejected_store.
Proof.
  split; [exact rejected_store_reachable|].
  exact (reachable_status_known default_admin_key rejected_store
           rejected_store_reachable).
Defined.

(** ** Seeding *)

(** X8. [seed_data] never fails; it leaves a store that has records as it
    is and fills an empty one with three approved records stamped with the
    current time, so that seeding again changes nothing. *)
Theorem seed_data_fills_empty_store_only (ids ids2 : list Z)
    (clock clock2 : datetime) (db : list item) :
  exists db',
    seed_data ids clock db = inr db'
    /\ match db with
       | [] =>
           List.length db' = 3%nat
           /\ Forall (fun it =>
                        status it = py "approved"
                        /\ created_at (timestamps it) = isoformat clock
                        /\ updated_at (timestamps it) = isoformat clock) db'
       | _ :: _ => db' = db
       end
    /\ seed_data ids2 clock2 db' = inr db'.
Proof.
  destruct db as [|x db].
  - unfold seed_data. generalize (isoformat clock). intros now.
    vm_compute. eexists. split; [reflexivity|].
    split; [|reflexivity]. split; [reflexivity|].
    repeat constructor.
  - exists (x :: db). repeat split; reflexivity.
Qed.

(** ** Looking a record up by its id *)

Lemma admin_approve_reviewed (ADMIN_KEY admin_key : str) (item_id : Z)
    (clock : datetime) (db : list item) :
  snd (admin_approve ADMIN_KEY admin_key item_id clock db)
  = reviewed (str_eqb admin_key ADMIN_KEY) item_id (py "approved")
      (isoformat clock) db.
Proof. apply admin_approve_store. Qed.

Lemma admin_reject_reviewed (ADMIN_KEY admin_key : str) (item_id : Z)
    (clock : datetime) (db : list item) :
  snd (admin_reject ADMIN_KEY admin_key item_id clock db)
  = reviewed (str_eqb admin_key ADMIN_KEY) item_id (py "rejected")
      (isoformat clock) db.
Proof. apply admin_reject_store. Qed.

(** [find] answers the first element that passes, or none passes. *)
Lemma find_first (p : item -> bool) (l : list item) :
  match find p l with
  | Some x =>
      exists k,
        nth_error l k = Some x /\ p x = true
        /\ forall j y, (j < k)%nat -> nth_error l j = Some y -> p y = false
  | None => forall x, In x l -> p x = false
  end.
Proof.
  induction l as [|a l IH]; simpl; [intros x []|].
  destruct (p a) eqn:E.
  - exists 0%nat. repeat split; auto. intros j y Hj. lia.
  - destruct (find p l) as [x|].
    + destruct IH as (k & A & B & C). exists (S k). repeat split; auto.
      intros [|j] y Hj Hy; simpl in Hy; [congruence|].
      apply (C j); [lia | exact Hy].
    + intros x [<- | Hx]; auto.
Qed.

Lemma find_app (p : item -> bool) (l1 l2 : list item) :
  find p (l1 ++ l2)
  = match find p l1 with
    | Some x => Some x
    | None => find p l2
    end.
Proof.
  induction l1 as [|a l1 IH]; simpl; [reflexivity|].
  destruct (p a); [reflexivity | exact IH].
Qed.

Lemma find_existsb (p : item -> bool) (l : list item) :
  existsb p l = match find p l with Some _ => true | None => false end.
Proof.
  induction l as [|a l IH]; simpl; [reflexivity|].
  destruct (p a); [reflexivity | exact IH].
Qed.

(** A record that does not pass, or that follows one that passes, is not
    the one [update_first] changes. *)
Lemma update_first_elsewhere (p : item -> bool) (f : item -> item)
    (l : list item) :
  forall i x,
    nth_error l i = Some x ->
    p x = false
    \/ (exists j y, (j < i)%nat /\ nth_error l j = Some y /\ p y = true) ->
    nth_error (update_first p f l) i = Some x.
Proof.
  induction l as [|a l IH]; intros [|i] x H C; simpl in H; try discriminate.
  - injection H as ->. simpl.
    destruct C as [-> | (j & y & Hj & _)]; [reflexivity | lia].
  - simpl. destruct (p a) eqn:E; [exact H|]. simpl. apply IH; [exact H|].
    destruct C as [C | (j & y & Hj & Hy & Py)]; [now left|].
    right. destruct j as [|j]; simpl in Hy.
    + congruence.
    + exists j, y. repeat split; auto. lia.
Qed.

(** X9. A record that has the id of a record before it in the store is
    out of reach: no approve or reject, whatever its arguments, changes
    it, and for its id the lookup of [listing] finds, and [metadata_json]
    answers with, a record at an earlier place. *)
Theorem duplicate_id_is_out_of_reach (ADMIN_KEY admin_key : str) (item_id : Z)
    (clock : datetime) (db : list item) (j i : nat) (first it : item) :
  nth_error db j = Some first -> nth_error db i = Some it ->
  (j < i)%nat -> id first = id it ->
  nth_error (snd (admin_approve ADMIN_KEY admin_key item_id clock db)) i
    = Some it
  /\ nth_error (snd (admin_reject ADMIN_KEY admin_key item_id clock db)) i
     = Some it
  /\ exists k shown,
       (k < i)%nat /\ nth_error db k = Some shown
       /\ listing_item (id it) db
          = ListingItem shown (status_badge (status shown))
       /\ metadata_json (id it) db = JsonResponse (json_projection shown).
Proof.
  intros Hj Hi Lt Same.
  assert (Kept : forall target now,
            nth_error (reviewed (str_eqb admin_key ADMIN_KEY) item_id target now db) i
            = Some it).
  { intros target now. unfold reviewed.
    destruct (str_eqb admin_key ADMIN_KEY); [|exact Hi].
    destruct (find _ db); [|exact Hi].
    apply update_first_elsewhere; [exact Hi|].
    destruct (id it =? item_id)%Z eqn:E; [|now left].
    right. exists j, first. repeat split; auto. now rewrite Same. }
  rewrite admin_approve_reviewed, admin_reject_reviewed.
  split; [apply Kept|]. split; [apply Kept|].
  unfold listing_item, metadata_json.
  pose proof (find_first (fun x => (id x =? id it)%Z) db) as F.
  destruct (find (fun x => (id x =? id it)%Z) db) as [shown|].
  - destruct F as (k & A & B & C).
    exists k, shown. repeat split; auto.
    destruct (Nat.lt_ge_cases k i) as [L | G]; [exact L|].
    assert (k = j \/ (j < k)%nat) as [-> | L] by lia; [lia|].
    specialize (C j first L Hj). rewrite Same, Z.eqb_refl in C. discriminate.
  - exfalso. specialize (F it (nth_error_In _ _ Hi)).
    cbn in F. rewrite Z.eqb_refl in F. discriminate.
Qed.

Lemma duplicate_id_is_out_of_reach_witness :
  exists first it,
    nth_error colliding_store 3 = Some first
    /\ nth_error colliding_store 4 = Some it
    /\ id first = id it
    /\ nth_error
         (snd (admin_approve default_admin_key default_admin_key 104
                 (Datetime 2024 1 4 12 0 0 0) colliding_store)) 4
       = Some it
    /\ metadata_json (id it) colliding_store
       = JsonResponse (json_projection first).
Proof.
  destruct (nth_error colliding_store 3) as [first|] eqn:E3;
    [|vm_compute in E3; discriminate].
  destruct (nth_error colliding_store 4) as [it|] eqn:E4;
    [|vm_compute in E4; discriminate].
  pose proof E3 as V3. vm_compute in V3. injection V3 as <-.
  pose proof E4 as V4. vm_compute in V4. injection V4 as <-.
  destruct (duplicate_id_is_out_of_reach default_admin_key default_admin_key
              104 (Datetime 2024 1 4 12 0 0 0) colliding_store 3 4 _ _
              E3 E4 (Nat.lt_succ_diag_r 3) eq_refl)
    as (A & _ & _).
  eexists. eexists. split; [reflexivity|]. split; [reflexivity|].
  split; [reflexivity|]. split; [exact A|].
  vm_compute. reflexivity.
Defined.

(** X10. [listing] and [metadata_json] abort with 404 exactly when no
    record has the id; otherwise both take the first record of the store
    that has it: [listing] builds its page from that record, and
    [metadata_json] answers with its id, status, metadata, proof and
    timestamps. *)
Theorem detail_routes_find_first (item_id : Z) (db : list item) :
  (listing_item item_id db = ListingAbort 404
   /\ metadata_json item_id db = DetailAbort 404
   /\ forall it, In it db -> id it <> item_id)
  \/ exists i it,
       nth_error db i = Some it /\ id it = item_id
       /\ (forall j x, (j < i)%nat -> nth_error db j = Some x ->
                       id x <> item_id)
       /\ listing_item item_id db = ListingItem it (status_badge (status it))
       /\ metadata_json item_id db = JsonResponse (json_projection it).
Proof.
  unfold listing_item, metadata_json.
  pose proof (find_first (fun x => (id x =? item_id)%Z) db) as F.
  destruct (find (fun x => (id x =? item_id)%Z) db) as [it|].
  - right. destruct F as (k & A & B & C). exists k, it.
    split; [exact A|]. split; [now apply Z.eqb_eq|].
    split; [|auto]. intros j x Hj Hx. apply Z.eqb_neq. eauto.
  - left. repeat split. intros it Hin. apply Z.eqb_neq. now apply F.
Qed.

(** X11. After a confirmed submission the lookup of [listing] and
    [metadata_json] find the new record under its id when no stored record
    had that id; when one had, they still find what they found before and
    the new record cannot be looked up. *)
Theorem submitted_record_lookup (form : list (str * str)) (item_id : Z)
    (clock : datetime) (db db' : list item) (it : item) :
  onboard POST form item_id clock db = (Confirmation it, db') ->
  if existsb (fun x => (id x =? item_id)%Z) db then
    listing_item item_id db' = listing_item item_id db
    /\ metadata_json item_id db' = metadata_json item_id db
  else
    listing_item item_id db' = ListingItem it (py "badge-pending")
    /\ metadata_json item_id db' = JsonResponse (json_projection it).
Proof.
  intros H. apply onboard_confirmed in H as (-> & Hid & Hs & _).
  unfold listing_item, metadata_json. rewrite find_existsb, find_app.
  destruct (find (fun x => (id x =? item_id)%Z) db) as [old|];
    [split; reflexivity|].
  cbn [find]. rewrite Hid, Z.eqb_refl, Hs. split; reflexivity.
Qed.

Lemma submitted_record_lookup_witness :
  exists it db',
    onboard POST blank_producer_form 104
      (Datetime 2024 1 2 10 0 1 104) submitted_store
    = (Confirmation it, db')
    /\ metadata_json 104 db' = metadata_json 104 submitted_store
    /\ metadata_json 104 db' <> JsonResponse (json_projection it).
Proof.
  destruct (onboard POST blank_producer_form 104
              (Datetime 2024 1 2 10 0 1 104) submitted_store)
    as [r db'] eqn:E.
  pose proof E as V. vm_compute in V. injection V as <- <-.
  pose proof (submitted_record_lookup _ _ _ _ _ _ E) as L.
  change (existsb _ submitted_store) with true in L. destruct L as [_ M].
  eexists. eexists. split; [reflexivity|]. split; [exact M|].
  intros C. vm_compute in C. discriminate.
Defined.

(** ** Reviews in sequence *)

Lemma update_first_twice (p : item -> bool) (f g : item -> item)
    (l : list item) :
  (forall x, p (g x) = p x) -> (forall x, f (g x) = f x) ->
  update_first p f (update_first p g l) = update_first p f l.
Proof.
  intros Hp Hf. induction l as [|a l IH]; simpl; [reflexivity|].
  destruct (p a) eqn:E; simpl.
  - now rewrite Hp, E, Hf.
  - now rewrite E, IH.
Qed.

Lemma find_update_first (p : item -> bool) (g : item -> item)
    (l : list item) :
  (forall x, p (g x) = p x) ->
  find p (update_first p g l) = option_map g (find p l).
Proof.
  intros Hp. induction l as [|a l IH]; simpl; [reflexivity|].
  destruct (p a) eqn:E; simpl.
  - now rewrite Hp, E.
  - now rewrite E, IH.
Qed.

Lemma reviewed_again (key_ok : bool) (item_id : Z) (t1 n1 t2 n2 : str)
    (db : list item) :
  reviewed true item_id t2 n2 (reviewed key_ok item_id t1 n1 db)
  = reviewed true item_id t2 n2 db.
Proof.
  unfold reviewed. destruct key_ok; [|reflexivity].
  destruct (find (fun x => (id x =? item_id)%Z) db) as [x|] eqn:F.
  - rewrite find_update_first, F by reflexivity. cbn [option_map].
    now apply update_first_twice.
  - now rewrite F.
Qed.

(** X12. The last review wins: approve or reject with the admin key
    leaves the store that it would have left had the earlier approve or
    reject of the same id not happened; status and [updated_at] of the
    earlier call leave no trace. *)
Theorem later_review_overwrites (ADMIN_KEY earlier_key : str) (item_id : Z)
    (c1 c2 : datetime) (db : list item) :
  let approve k c s := snd (admin_approve ADMIN_KEY k item_id c s) in
  let reject k c s := snd (admin_reject ADMIN_KEY k item_id c s) in
  approve ADMIN_KEY c2 (approve earlier_key c1 db) = approve ADMIN_KEY c2 db
  /\ approve ADMIN_KEY c2 (reject earlier_key c1 db) = approve ADMIN_KEY c2 db
  /\ reject ADMIN_KEY c2 (approve earlier_key c1 db) = reject ADMIN_KEY c2 db
  /\ reject ADMIN_KEY c2 (reject earlier_key c1 db) = reject ADMIN_KEY c2 db.
Proof.
  cbv beta zeta.
  rewrite !admin_approve_reviewed, !admin_reject_reviewed, str_eqb_refl.
  repeat split; apply reviewed_again.
Qed.

(** X13. With the admin key, approve puts the first record that has the
    id into the approved list that [market] computes, approved and
    stamped with the current time; reject leaves it in the store under
    "rejected", in neither the pending queue nor the approved list that
    [admin] computes. *)
Theorem reviewed_record_in_listings (ADMIN_KEY : str) (item_id : Z)
    (clock : datetime) (db : list item) (i : nat) (it : item) :
  nth_error db i = Some it -> id it = item_id ->
  (forall j x, (j < i)%nat -> nth_error db j = Some x -> id x <> item_id) ->
  In (set_status (py "approved") (isoformat clock) it)
     (market_items (snd (admin_approve ADMIN_KEY ADMIN_KEY item_id clock db)))
  /\ (exists pending_items approved_items,
        admin_items ADMIN_KEY ADMIN_KEY
          (snd (admin_reject ADMIN_KEY ADMIN_KEY item_id clock db))
          = Some (pending_items, approved_items)
        /\ nth_error (snd (admin_reject ADMIN_KEY ADMIN_KEY item_id clock db)) i
           = Some (set_status (py "rejected") (isoformat clock) it)
        /\ ~ In (set_status (py "rejected") (isoformat clock) it) pending_items
        /\ ~ In (set_status (py "rejected") (isoformat clock) it)
             approved_items).
Proof.
  intros Hi Hid First.
  assert (At : forall target,
            nth_error (reviewed true item_id target (isoformat clock) db) i
            = Some (set_status target (isoformat clock) it)).
  { intros target.
    destruct (admin_call_nth true item_id target (isoformat clock) db i it Hi)
      as (it' & A & _ & C).
    rewrite (C eq_refl Hid First) in A. exact A. }
  split.
  - unfold market_items.
    eapply Permutation_in; [symmetry; apply list_sort_perm|].
    apply filter_status_In. split; [|reflexivity].
    rewrite admin_approve_reviewed, str_eqb_refl.
    eapply nth_error_In. apply At.
  - unfold admin_items. rewrite str_eqb_refl. cbn [negb].
    do 2 eexists. split; [reflexivity|].
    rewrite admin_reject_reviewed, str_eqb_refl.
    split; [apply At|].
    split; intros Hin;
      (eapply Permutation_in in Hin; [|apply list_sort_perm]);
      apply filter_status_In in Hin as [_ S]; cbn in S; discriminate.
Qed.

Lemma reviewed_record_in_listings_witness :
  exists it,
    nth_error submitted_store 3 = Some it
    /\ status it = py "pending"
    /\ In (set_status (py "approved") (isoformat (Datetime 2024 1 4 12 0 0 0)) it)
          (market_items
             (snd (admin_approve default_admin_key default_admin_key 104
                     (Datetime 2024 1 4 12 0 0 0) submitted_store))).
Proof.
  destruct (nth_error submitted_store 3) as [it|] eqn:E;
    [|vm_compute in E; discriminate].
  pose proof E as V. vm_compute in V. injection V as <-.
  assert (First : forall j x, (j < 3)%nat ->
                    nth_error submitted_store j = Some x -> id x <> 104%Z).
  { intros j x Hj Hx.
    destruct j as [|[|[|j]]]; [| | |lia];
      vm_compute in Hx; injection Hx as <-; cbn [id]; discriminate. }
  destruct (reviewed_record_in_listings default_admin_key 104
              (Datetime 2024 1 4 12 0 0 0) submitted_store 3 _ E eq_refl First)
    as [I _].
  eexists. split; [reflexivity|]. split; [reflexivity|]. exact I.
Defined.

(** ** Timestamps *)

Lemma lex_step (a b : N) (x y : bool) :
  (a <? b) || ((a =? b) && x) = false ->
  (b <? a) || ((b =? a) && y) = false ->
  a = b /\ x = false /\ y = false.
Proof.
  destruct (N.ltb_spec a b), (N.ltb_spec b a), (N.eqb_spec a b),
    (N.eqb_spec b a); cbn; intros; subst; try discriminate; try lia; auto.
Qed.

(** X14. The texts that [isoformat] writes for two datetimes compare, as
    strings, the way the datetimes do, also between a whole second (written
    without fraction) and a later microsecond of it; so two datetimes with
    the same text are the same. *)
Theorem isoformat_keeps_order (d1 d2 : datetime) :
  valid_datetime d1 = true -> valid_datetime d2 = true ->
  str_ltb (isoformat d1) (isoformat d2) = datetime_ltb d1 d2
  /\ (isoformat d1 = isoformat d2 -> d1 = d2).
Proof.
  intros V1 V2. split; [now apply isoformat_ltb|].
  intros E.
  pose proof (isoformat_ltb d1 d2 V1 V2) as L12.
  pose proof (isoformat_ltb d2 d1 V2 V1) as L21.
  rewrite E, str_ltb_irrefl in L12. rewrite E, str_ltb_irrefl in L21.
  symmetry in L12, L21. unfold datetime_ltb in L12, L21.
  destruct d1 as [y1 mo1 da1 h1 mi1 s1 u1], d2 as [y2 mo2 da2 h2 mi2 s2 u2].
  cbn [year month day hour minute second microsecond] in L12, L21.
  destruct (lex_step _ _ _ _ L12 L21) as (-> & A12 & A21).
  destruct (lex_step _ _ _ _ A12 A21) as (-> & B12 & B21).
  destruct (lex_step _ _ _ _ B12 B21) as (-> & C12 & C21).
  destruct (lex_step _ _ _ _ C12 C21) as (-> & D12 & D21).
  destruct (lex_step _ _ _ _ D12 D21) as (-> & E12 & E21).
  destruct (lex_step _ _ _ _ E12 E21) as (-> & F12 & F21).
  apply N.ltb_ge in F12, F21. f_equal. lia.
Qed.

Lemma isoformat_keeps_order_witness :
  isoformat (Datetime 2024 1 1 10 0 0 0) = py "2024-01-01T10:00:00"
  /\ isoformat (Datetime 2024 1 1 10 0 0 1) = py "2024-01-01T10:00:00.000001"
  /\ str_ltb (isoformat (Datetime 2024 1 1 10 0 0 0))
             (isoformat (Datetime 2024 1 1 10 0 0 1))
     = datetime_ltb (Datetime 2024 1 1 10 0 0 0) (Datetime 2024 1 1 10 0 0 1).
Proof.
  split; [reflexivity|]. split; [reflexivity|].
  exact (proj1 (isoformat_keeps_order (Datetime 2024 1 1 10 0 0 0)
                  (Datetime 2024 1 1 10 0 0 1) eq_refl eq_refl)).
Defined.

Lemma Forall_update_first_step (P Q : item -> Prop) (p : item -> bool)
    (f : item -> item) (l : list item) :
  (forall x, P x -> Q x) -> (forall x, P x -> Q (f x)) ->
  Forall P l -> Forall Q (update_first p f l).
Proof.
  intros PQ Pf. induction 1 as [|x l Hx Hl IH]; simpl; [constructor|].
  destruct (p x); constructor; auto.
  eapply Forall_impl; [|exact Hl]. exact PQ.
Qed.

(** While the clock does not go back, every record was created no later
    than it was last updated, and updated no later than the last
    reading. *)
Lemma run_invariant (ADMIN_KEY : str) (last : datetime) (db : list item) :
  run ADMIN_KEY last db ->
  valid_datetime last = true
  /\ Forall (fun it =>
               str_leb (created_at (timestamps it)) (updated_at (timestamps it))
                 = true
               /\ str_leb (updated_at (timestamps it)) (isoformat last) = true)
            db.
Proof.
  assert (Seed : forall now seeds ids items db0,
             seed_loop seeds ids now items = inr db0 ->
             Forall (fun it =>
                       str_leb (created_at (timestamps it))
                         (updated_at (timestamps it)) = true
                       /\ str_leb (updated_at (timestamps it)) now = true)
                    items ->
             Forall (fun it =>
                       str_leb (created_at (timestamps it))
                         (updated_at (timestamps it)) = true
                       /\ str_leb (updated_at (timestamps it)) now = true)
                    db0).
  { intros now. induction seeds as [|seed seeds IH]; intros ids items db0; simpl.
    - intros [= <-]. auto.
    - destruct (create_metadata seed) as [e|m]; cbn [bind]; [discriminate|].
      destruct (compute_proof_hash m) as [e|h]; cbn [bind]; [discriminate|].
      intros E F. apply (IH _ _ _ E).
      apply Forall_app. split; [exact F|].
      constructor; [|constructor]. cbn. split; apply str_leb_refl. }
  assert (Later : forall a b s,
             valid_datetime a = true -> valid_datetime b = true ->
             datetime_leb a b = true ->
             str_leb s (isoformat a) = true -> str_leb s (isoformat b) = true).
  { intros a b s Va Vb L H. eapply str_leb_trans; [exact H|].
    now rewrite isoformat_leb. }
  assert (Review : forall last0 clock key_ok item_id target s,
             valid_datetime last0 = true -> valid_datetime clock = true ->
             datetime_leb last0 clock = true ->
             Forall (fun it =>
                       str_leb (created_at (timestamps it))
                         (updated_at (timestamps it)) = true
                       /\ str_leb (updated_at (timestamps it)) (isoformat last0)
                          = true) s ->
             Forall (fun it =>
                       str_leb (created_at (timestamps it))
                         (updated_at (timestamps it)) = true
                       /\ str_leb (updated_at (timestamps it)) (isoformat clock)
                          = true)
                    (reviewed key_ok item_id target (isoformat clock) s)).
  { intros last0 clock key_ok item_id target s V0 V L F.
    assert (W : Forall (fun it =>
                  str_leb (created_at (timestamps it))
                    (updated_at (timestamps it)) = true
                  /\ str_leb (updated_at (timestamps it)) (isoformat clock)
                     = true) s).
    { eapply Forall_impl; [|exact F]. intros x [A B]. split; [exact A|].
      now apply (Later last0 clock). }
    unfold reviewed. destruct key_ok; [|exact W].
    destruct (find _ s); [|exact W].
    eapply Forall_update_first_step; [| |exact F].
    - intros x [A B]. split; [exact A|]. now apply (Later last0 clock).
    - intros x [A B]. cbn. split; [|apply str_leb_refl].
      eapply str_leb_trans; [exact A|]. now apply (Later last0 clock). }
  induction 1 as [ids clock db V E
                 | last db form item_id clock R [V0 IH] V L
                 | last db admin_key item_id clock R [V0 IH] V L
                 | last db admin_key item_id clock R [V0 IH] V L];
    (split; [exact V|]).
  - unfold seed_data in E. eapply Seed; eauto.
  - assert (W : Forall (fun it =>
                  str_leb (created_at (timestamps it))
                    (updated_at (timestamps it)) = true
                  /\ str_leb (updated_at (timestamps it)) (isoformat clock)
                     = true) db).
    { eapply Forall_impl; [|exact IH]. intros x [A B]. split; [exact A|].
      now apply (Later last clock). }
    destruct (onboard_store form item_id clock db) as [-> | [it E]];
      [exact W|].
    rewrite E. cbn [snd]. apply Forall_app. split; [exact W|].
    constructor; [|constructor].
    apply onboard_confirmed in E as (_ & _ & _ & T & _).
    rewrite T. cbn. split; apply str_leb_refl.
  - rewrite admin_approve_reviewed. now apply (Review last).
  - rewrite admin_reject_reviewed. now apply (Review last).
Qed.

(** X15. In a run whose clock never goes back, [updated_at] of a record is
    never before its [created_at]: neither as texts, in the order the
    listings sort by, nor as the times they write. *)
Theorem updated_never_before_created (ADMIN_KEY : str) (last : datetime)
    (db : list item) :
  run ADMIN_KEY last db ->
  Forall (fun it =>
            str_leb (created_at (timestamps it)) (updated_at (timestamps it))
              = true
            /\ not_after (created_at (timestamps it))
                 (updated_at (timestamps it))) db.
Proof.
  intros R. destruct (run_invariant _ _ _ R) as [_ F].
  eapply Forall_impl; [|exact F].
  intros it [A _]. split; [exact A | now apply str_leb_not_after].
Qed.

Lemma updated_never_before_created_witness :
  run default_admin_key (Datetime 2024 1 3 11 30 0 250000) rejected_store
  /\ Forall (fun it =>
               str_leb (created_at (timestamps it))
                 (updated_at (timestamps it)) = true
               /\ not_after (created_at (timestamps it))
                    (updated_at (timestamps it))) rejected_store.
Proof.
  assert (R : run default_admin_key (Datetime 2024 1 3 11 30 0 250000)
                rejected_store).
  { replace rejected_store
      with (snd (admin_reject default_admin_key default_admin_key 104
                   (Datetime 2024 1 3 11 30 0 250000) submitted_store))
      by (vm_compute; reflexivity).
    apply run_reject with (Datetime 2024 1 2 10 0 0 0);
      [|reflexivity|reflexivity].
    replace submitted_store
      with (snd (onboard POST scenario_form 104
                   (Datetime 2024 1 2 10 0 0 0) seeded_store))
      by (vm_compute; reflexivity).
    apply run_onboard with (Datetime 2024 1 1 9 0 0 1);
      [|reflexivity|reflexivity].
    apply run_seed with [101; 102; 103]%Z; vm_compute; reflexivity. }
  split; [exact R|].
  exact (updated_never_before_created default_admin_key _ _ R).
Defined.

(** ** The canonical text can be read in one way only *)

Lemma hex_value_digit (d : N) : d < 16 -> SHA256.hex_value (hex_digit d) = d.
Proof.
  intros H. unfold SHA256.hex_value, hex_digit.
  destruct (N.ltb_spec d 10) as [L | L].
  - destruct (N.ltb_spec (48 + d) 58); lia.
  - destruct (N.ltb_spec (87 + d) 58); lia.
Qed.

Lemma unescape_escape (c : N) (r : str) :
  unescape_head (escape_char c ++ r) = Some (c, r).
Proof.
  unfold escape_char.
  destruct (N.eqb_spec c 0x22) as [-> | N1]; [reflexivity|].
  destruct (N.eqb_spec c 0x5C) as [-> | N2]; [reflexivity|].
  destruct (N.eqb_spec c 0x0A) as [-> | N3]; [reflexivity|].
  destruct (N.eqb_spec c 0x0D) as [-> | N4]; [reflexivity|].
  destruct (N.eqb_spec c 0x09) as [-> | N5]; [reflexivity|].
  destruct (N.eqb_spec c 0x08) as [-> | N6]; [reflexivity|].
  destruct (N.eqb_spec c 0x0C) as [-> | N7]; [reflexivity|].
  destruct (N.ltb_spec c 0x20) as [L | L].
  - change (unescape_head
              ((0x5C :: py "u00"
                ++ [hex_digit (N.shiftr c 4); hex_digit (N.land c 0xF)]) ++ r))
      with (Some (16 * SHA256.hex_value (hex_digit (N.shiftr c 4))
                  + SHA256.hex_value (hex_digit (N.land c 0xF)), r)).
    assert (Hs : N.shiftr c 4 < 16).
    { rewrite N.shiftr_div_pow2. apply N.Div0.div_lt_upper_bound.
      change (2 ^ 4) with 16. lia. }
    rewrite !hex_value_digit by (exact Hs || apply nibble_bound).
    f_equal. f_equal.
    rewrite N.shiftr_div_pow2. change 0xF with (N.ones 4).
    rewrite N.land_ones. change (2 ^ 4) with 16.
    symmetry. apply N.div_mod. discriminate.
  - cbn [app unescape_head].
    destruct (N.eqb_spec c 0x22); [contradiction|].
    destruct (N.eqb_spec c 0x5C); [contradiction|]. reflexivity.
Qed.

Lemma escaped_unique (s1 : str) :
  forall s2 r1 r2,
    flat_map escape_char s1 ++ 0x22 :: r1 = flat_map escape_char s2 ++ 0x22 :: r2 ->
    s1 = s2 /\ r1 = r2.
Proof.
  induction s1 as [|c1 s1 IH]; intros [|c2 s2] r1 r2 H; cbn [flat_map] in H.
  - injection H as ->. auto.
  - rewrite <- app_assoc in H. apply (f_equal unescape_head) in H.
    rewrite unescape_escape in H. discriminate.
  - rewrite <- app_assoc in H. apply (f_equal unescape_head) in H.
    rewrite unescape_escape in H. discriminate.
  - rewrite <- !app_assoc in H. apply (f_equal unescape_head) in H.
    rewrite !unescape_escape in H. injection H as -> H.
    destruct (IH _ _ _ H) as [-> ->]. auto.
Qed.

Lemma encode_basestring_unique (s1 s2 r1 r2 : str) :
  encode_basestring s1 ++ r1 = encode_basestring s2 ++ r2 ->
  s1 = s2 /\ r1 = r2.
Proof.
  unfold encode_basestring. rewrite <- !app_assoc. cbn [app].
  intros [= H]. now apply escaped_unique.
Qed.

Lemma uint_chars_unique (u1 : Decimal.uint) :
  forall u2 r1 r2,
    uint_chars u1 ++ r1 = uint_chars u2 ++ r2 ->
    ends_number r1 = true -> ends_number r2 = true ->
    u1 = u2 /\ r1 = r2.
Proof.
  induction u1 as [|u1 IH|u1 IH|u1 IH|u1 IH|u1 IH|u1 IH|u1 IH|u1 IH|u1 IH|u1 IH];
    intros [|u2|u2|u2|u2|u2|u2|u2|u2|u2|u2] r1 r2 H E1 E2;
    cbn [uint_chars app] in H;
    try (injection H as H; destruct (IH _ _ _ H E1 E2) as [-> ->]; now auto);
    try discriminate H;
    try (subst; auto; fail);
    try (rewrite H in E1; discriminate E1);
    try (rewrite <- H in E2; discriminate E2).
Qed.

Lemma uint_chars_head (u : Decimal.uint) :
  u <> Decimal.Nil ->
  exists c t, uint_chars u = c :: t /\ ends_number (c :: t) = false.
Proof.
  destruct u; intros H; try contradiction; cbn [uint_chars]; eauto.
Qed.

Lemma to_int_nonnil (n : Z) :
  match Z.to_int n with
  | Decimal.Pos u | Decimal.Neg u => u <> Decimal.Nil
  end.
Proof.
  destruct n; cbn; try apply DecimalPos.Unsigned.to_uint_nonnil. discriminate.
Qed.

Lemma int_repr_unique (n1 n2 : Z) (r1 r2 : str) :
  int_repr n1 ++ r1 = int_repr n2 ++ r2 ->
  ends_number r1 = true -> ends_number r2 = true ->
  n1 = n2 /\ r1 = r2.
Proof.
  unfold int_repr. intros H E1 E2.
  pose proof (to_int_nonnil n1) as N1. pose proof (to_int_nonnil n2) as N2.
  destruct (Z.to_int n1) as [u1|u1] eqn:T1, (Z.to_int n2) as [u2|u2] eqn:T2.
  - destruct (uint_chars_unique _ _ _ _ H E1 E2) as [-> ->].
    split; [|reflexivity]. apply DecimalZ.to_int_inj. congruence.
  - destruct (uint_chars_head u1 N1) as (c & t & Hc & Hd).
    rewrite Hc in H. cbn in H. injection H as -> _. discriminate Hd.
  - destruct (uint_chars_head u2 N2) as (c & t & Hc & Hd).
    rewrite Hc in H. cbn in H. injection H as <- _. discriminate Hd.
  - cbn [app] in H. injection H as H.
    destruct (uint_chars_unique _ _ _ _ H E1 E2) as [-> ->].
    split; [|reflexivity]. apply DecimalZ.to_int_inj. congruence.
Qed.

(** The first character tells the kind of value. *)
Lemma dumps_head (sort_keys : bool) (j : json) :
  exists c t,
    dumps sort_keys j = c :: t
    /\ match j with
       | JInt _ => c <> 0x22 /\ c <> 0x7B
       | JStr _ => c = 0x22
       | JDict _ => c = 0x7B
       end.
Proof.
  destruct j as [n|s|items].
  - cbn [dumps]. unfold int_repr. pose proof (to_int_nonnil n) as N.
    destruct (Z.to_int n) as [u|u].
    + destruct (uint_chars_head u N) as (c & t & -> & Hd).
      exists c, t. split; [reflexivity|].
      cbn in Hd. apply negb_false_iff, andb_true_iff in Hd as [A B].
      apply N.leb_le in A, B. lia.
    + eexists. eexists. split; [reflexivity|]. lia.
  - cbn [dumps]. unfold encode_basestring. cbn [app]. eauto.
  - cbn [dumps]. change (py "{") with [0x7B]. cbn [app]. eauto.
Qed.

Lemma join_cons_app (sep p : str) (rest : list str) (t : str) :
  join sep (p :: rest) ++ t
  = p ++ match rest with
         | [] => t
         | _ :: _ => sep ++ join sep rest ++ t
         end.
Proof.
  destruct rest as [|q rest]; [reflexivity|].
  change (join sep (p :: q :: rest)) with (p ++ sep ++ join sep (q :: rest)).
  now rewrite <- !app_assoc.
Qed.

(** The items of a dict, written in their order, can be read back in one
    way when their values can. *)
Lemma items_unique (l1 : list (str * json)) :
  Forall (fun kv =>
            forall m2 r1 r2,
              dumps false (snd kv) ++ r1 = dumps false m2 ++ r2 ->
              ends_number r1 = true -> ends_number r2 = true ->
              snd kv = m2 /\ r1 = r2) l1 ->
  forall l2 r1 r2,
    join (py ", ")
      (map (fun kv => item_text (fst kv, dumps false (snd kv))) l1)
    ++ 0x7D :: r1
    = join (py ", ")
        (map (fun kv => item_text (fst kv, dumps false (snd kv))) l2)
      ++ 0x7D :: r2 ->
    l1 = l2 /\ r1 = r2.
Proof.
  induction 1 as [|[k1 v1] l1 Hv Hl IH]; intros [|[k2 v2] l2] r1 r2 H.
  - injection H as ->. auto.
  - cbn [map] in H. rewrite join_cons_app in H.
    unfold item_text, encode_basestring in H. discriminate H.
  - cbn [map] in H. rewrite join_cons_app in H.
    unfold item_text, encode_basestring in H. discriminate H.
  - cbn [map] in H. rewrite !join_cons_app in H.
    unfold item_text in H. cbn [fst snd] in H. rewrite <- !app_assoc in H.
    apply encode_basestring_unique in H as [-> H].
    change (py ": ") with [58; 32] in H. injection H as H.
    cbn [snd] in Hv.
    assert (E : forall (rest : list str) r,
              ends_number
                match rest with
                | [] => 0x7D :: r
                | _ :: _ => py ", " ++ join (py ", ") rest ++ 0x7D :: r
                end = true)
      by (intros [|? ?] ?; reflexivity).
    apply Hv in H as [-> H]; [|apply E|apply E].
    destruct l1 as [|kv1 l1], l2 as [|kv2 l2]; cbn [map] in H.
    + injection H as ->. auto.
    + discriminate H.
    + discriminate H.
    + injection H as H.
      destruct (IH (kv2 :: l2) r1 r2 H) as [-> ->]. auto.
Qed.

(** A value written without sorting can be read back in one way. *)
Lemma dumps_unsorted_unique (m1 : json) :
  forall m2 r1 r2,
    dumps false m1 ++ r1 = dumps false m2 ++ r2 ->
    ends_number r1 = true -> ends_number r2 = true ->
    m1 = m2 /\ r1 = r2.
Proof.
  induction m1 as [n1|s1|l1 IH] using json_induction;
    intros m2 r1 r2 H E1 E2.
  - destruct m2 as [n2|s2|l2].
    + cbn [dumps] in H. destruct (int_repr_unique _ _ _ _ H E1 E2) as [-> ->].
      auto.
    + destruct (dumps_head false (JInt n1)) as (c1 & t1 & A1 & B1).
      destruct (dumps_head false (JStr s2)) as (c2 & t2 & A2 & B2).
      rewrite A1, A2 in H. injection H as -> _. lia.
    + destruct (dumps_head false (JInt n1)) as (c1 & t1 & A1 & B1).
      destruct (dumps_head false (JDict l2)) as (c2 & t2 & A2 & B2).
      rewrite A1, A2 in H. injection H as -> _. lia.
  - destruct m2 as [n2|s2|l2].
    + destruct (dumps_head false (JStr s1)) as (c1 & t1 & A1 & B1).
      destruct (dumps_head false (JInt n2)) as (c2 & t2 & A2 & B2).
      rewrite A1, A2 in H. injection H as -> _. lia.
    + cbn [dumps] in H. apply encode_basestring_unique in H as [-> ->]. auto.
    + destruct (dumps_head false (JStr s1)) as (c1 & t1 & A1 & B1).
      destruct (dumps_head false (JDict l2)) as (c2 & t2 & A2 & B2).
      rewrite A1, A2 in H. injection H as -> _. lia.
  - destruct m2 as [n2|s2|l2].
    + destruct (dumps_head false (JDict l1)) as (c1 & t1 & A1 & B1).
      destruct (dumps_head false (JInt n2)) as (c2 & t2 & A2 & B2).
      rewrite A1, A2 in H. injection H as -> _. lia.
    + destruct (dumps_head false (JDict l1)) as (c1 & t1 & A1 & B1).
      destruct (dumps_head false (JStr s2)) as (c2 & t2 & A2 & B2).
      rewrite A1, A2 in H. injection H as -> _. lia.
    + cbn [dumps] in H. rewrite !map_map in H. cbn [fst snd] in H.
      change (py "{") with [0x7B] in H. change (py "}") with [0x7D] in H.
      rewrite <- !app_assoc in H. cbn [app] in H. injection H as H.
      destruct (items_unique l1 IH l2 r1 r2 H) as [-> ->]. auto.
Qed.

(** Sorting the keys while writing is writing the canonical form. *)
Lemma dumps_canon (m : json) : dumps true m = dumps false (canon m).
Proof.
  induction m as [n|s|items IH] using json_induction; [reflexivity..|].
  assert (E : sort_by fst (map (fun kv => (fst kv, dumps true (snd kv))) items)
              = map (fun kv => (fst kv, dumps false (snd kv)))
                  (sort_by fst
                     (map (fun kv => (fst kv, canon (snd kv))) items))).
  { rewrite (sort_by_map fst (fun kv => (fst kv, dumps true (snd kv)))).
    rewrite (sort_by_map fst (fun kv => (fst kv, canon (snd kv)))).
    cbn [fst]. rewrite map_map. cbn [fst snd].
    apply map_ext_in. intros kv Hin.
    eapply Permutation_in in Hin; [|apply sort_by_perm].
    rewrite Forall_forall in IH. now rewrite (IH _ Hin). }
  cbn [dumps canon]. now rewrite E.
Qed.

Lemma dict_get_unique {V} (d : list (str * V)) (k : str) (v : V) :
  NoDup (map fst d) -> In (k, v) d -> dict_get d k = Some v.
Proof.
  induction d as [|[k' v'] d IH]; intros N Hin; [destruct Hin|].
  inversion N as [|? ? Hk N']; subst. simpl.
  destruct Hin as [[= -> ->] | Hin].
  - now rewrite str_eqb_refl.
  - destruct (str_eqb k' k) eqn:E.
    + apply str_eqb_eq in E. subst. exfalso. apply Hk.
      apply in_map_iff. exists (k, v). auto.
    + now apply IH.
Qed.

(** Two values with the same canonical form have the same content. *)
Lemma canon_py_eq (m1 : json) :
  forall m2, wf_json m1 = true -> wf_json m2 = true ->
  canon m1 = canon m2 -> py_eq m1 m2 = true.
Proof.
  induction m1 as [n|s|l1 IH] using json_induction;
    intros [n2|s2|l2] W1 W2 E; cbn [canon] in E; try discriminate E.
  - injection E as ->. cbn. apply Z.eqb_refl.
  - injection E as ->. cbn. apply str_eqb_refl.
  - injection E as E.
    cbn [wf_json] in W1, W2.
    apply andb_true_iff in W1 as [U1 F1]. apply andb_true_iff in W2 as [U2 F2].
    rewrite forallb_forall in F1, F2. rewrite Forall_forall in IH.
    assert (P : Permutation
                  (map (fun kv => (fst kv, canon (snd kv))) l1)
                  (map (fun kv => (fst kv, canon (snd kv))) l2)).
    { rewrite <- (sort_by_perm fst (map _ l1)), E. apply sort_by_perm. }
    cbn [py_eq]. apply andb_true_iff. split.
    + apply Nat.eqb_eq. apply Permutation_length in P.
      now rewrite !length_map in P.
    + apply forallb_forall. intros [k v] Hin. cbn [fst snd].
      assert (Hc : In (k, canon v) (map (fun kv => (fst kv, canon (snd kv))) l2)).
      { eapply Permutation_in; [exact P|].
        apply in_map_iff. exists (k, v). auto. }
      apply in_map_iff in Hc as [[k' v'] [[= -> Hv] Hin']].
      rewrite (dict_get_unique l2 k v' (unique_keys_NoDup _ U2) Hin').
      apply (IH _ Hin v'); [exact (F1 _ Hin) | exact (F2 _ Hin') | now symmetry].
Qed.

(** Values with the same canonical text have the same content. *)
Lemma canonical_text_unique (m1 m2 : json) :
  wf_json m1 = true -> wf_json m2 = true ->
  dumps true m1 = dumps true m2 -> py_eq m1 m2 = true.
Proof.
  intros W1 W2 H. rewrite !dumps_canon in H.
  apply canon_py_eq; [exact W1 | exact W2|].
  apply (dumps_unsorted_unique (canon m1) (canon m2) [] []);
    [now rewrite !app_nil_r | reflexivity | reflexivity].
Qed.

(** X16. The text that [compute_proof_hash] hashes tells the content: for
    two metadata values, the canonical texts
    [json.dumps(..., sort_keys=True, ensure_ascii=False)] are the same
    exactly when the values are equal, so values that differ anywhere are
    hashed from different texts. *)
Theorem canonical_text_tells_content (m1 m2 : json) :
  wf_json m1 = true -> wf_json m2 = true ->
  (dumps true m1 = dumps true m2 <-> py_eq m1 m2 = true).
Proof.
  intros W1 W2. split.
  - now apply canonical_text_unique.
  - now apply dumps_sorted_py_eq.
Qed.

Lemma canonical_text_tells_content_witness :
  wf_json scenario_metadata = true
  /\ wf_json scenario_metadata_reordered = true
  /\ (dumps true scenario_metadata = dumps true scenario_metadata_reordered
      <-> py_eq scenario_metadata scenario_metadata_reordered = true).
Proof.
  assert (W1 : wf_json scenario_metadata = true) by (vm_compute; reflexivity).
  assert (W2 : wf_json scenario_metadata_reordered = true)
    by (vm_compute; reflexivity).
  split; [exact W1|]. split; [exact W2|].
  exact (canonical_text_tells_content _ _ W1 W2).
Defined.

(** ** The bytes that are hashed *)

Lemma lor_high_low (h l k : N) :
  l < 2 ^ k -> N.lor (h * 2 ^ k) l = h * 2 ^ k + l.
Proof.
  intros H.
  assert (Z : N.land (h * 2 ^ k) l = 0).
  { apply N.bits_inj. intros m. rewrite N.land_spec, N.bits_0.
    destruct (N.lt_ge_cases m k) as [L | G].
    - now rewrite N.mul_pow2_bits_low.
    - rewrite <- (N.mod_small l (2 ^ k)) by exact H.
      rewrite N.mod_pow2_bits_high by exact G. apply andb_false_r. }
  now rewrite N.add_nocarry_lxor, N.lxor_lor.
Qed.

Lemma low_bits (x h l k : N) :
  x = h * 2 ^ k + l -> l < 2 ^ k -> N.land x (N.ones k) = l.
Proof.
  intros -> H. rewrite N.land_ones, N.add_comm, N.Div0.mod_add.
  now apply N.mod_small.
Qed.

Lemma utf8_two (c : N) (rest : list N) :
  0x80 <= c -> c < 0x800 ->
  utf8_decode
    (N.lor 0xC0 (N.shiftr c 6) :: N.lor 0x80 (N.land c 0x3F) :: rest)
  = c :: utf8_decode rest.
Proof.
  intros Lo Hi.
  rewrite N.shiftr_div_pow2. change 0x3F with (N.ones 6).
  rewrite N.land_ones. change (2 ^ 6) with 64.
  pose proof (N.div_mod c 64 ltac:(discriminate)) as D.
  pose proof (N.mod_lt c 64 ltac:(discriminate)) as R.
  assert (Q : c / 64 < 32) by (apply N.Div0.div_lt_upper_bound; lia).
  assert (Q2 : 2 <= c / 64) by (apply N.div_le_lower_bound; lia).
  generalize dependent (c / 64). generalize dependent (c mod 64).
  intros r R q D Q Q2.
  assert (B0 : N.lor 192 q = 192 + q)
    by (apply (lor_high_low 3 q 6); change (2 ^ 6) with 64; lia).
  assert (B1 : N.lor 128 r = 128 + r) by (apply (lor_high_low 2 r 6); exact R).
  rewrite B0, B1. cbn [utf8_decode].
  destruct (N.ltb_spec (192 + q) 128); [lia|].
  destruct (N.ltb_spec (192 + q) 224); [|lia].
  change 31 with (N.ones 5). change 63 with (N.ones 6).
  rewrite (low_bits (192 + q) 6 q 5) by (change (2 ^ 5) with 32; lia).
  rewrite (low_bits (128 + r) 2 r 6) by (change (2 ^ 6) with 64; lia).
  rewrite N.shiftl_mul_pow2, lor_high_low by exact R.
  change (2 ^ 6) with 64. f_equal. lia.
Qed.

Lemma utf8_three (c : N) (rest : list N) :
  0x800 <= c -> c < 0x10000 ->
  utf8_decode
    (N.lor 0xE0 (N.shiftr c 12)
     :: N.lor 0x80 (N.land (N.shiftr c 6) 0x3F)
     :: N.lor 0x80 (N.land c 0x3F) :: rest)
  = c :: utf8_decode rest.
Proof.
  intros Lo Hi.
  rewrite !N.shiftr_div_pow2. change 0x3F with (N.ones 6).
  rewrite !N.land_ones. change (2 ^ 6) with 64. change (2 ^ 12) with 4096.
  assert (T : 64 <> 0) by discriminate.
  pose proof (N.div_mod c 64 T) as D. pose proof (N.mod_lt c 64 T) as R.
  pose proof (N.div_mod (c / 64) 64 T) as D1.
  pose proof (N.mod_lt (c / 64) 64 T) as R1.
  rewrite N.Div0.div_div in D1. change (64 * 64) with 4096 in D1.
  assert (A : c / 4096 < 16) by (apply N.Div0.div_lt_upper_bound; lia).
  generalize dependent (c / 4096). generalize dependent ((c / 64) mod 64).
  generalize dependent (c / 64). generalize dependent (c mod 64).
  intros r R q D m R1 a D1 A.
  assert (B0 : N.lor 224 a = 224 + a)
    by (apply (lor_high_low 14 a 4); change (2 ^ 4) with 16; lia).
  assert (B1 : N.lor 128 m = 128 + m) by (apply (lor_high_low 2 m 6); exact R1).
  assert (B2 : N.lor 128 r = 128 + r) by (apply (lor_high_low 2 r 6); exact R).
  rewrite B0, B1, B2. cbn [utf8_decode].
  destruct (N.ltb_spec (224 + a) 128); [lia|].
  destruct (N.ltb_spec (224 + a) 224); [lia|].
  destruct (N.ltb_spec (224 + a) 240); [|lia].
  change 15 with (N.ones 4). change 63 with (N.ones 6).
  rewrite (low_bits (224 + a) 14 a 4) by (change (2 ^ 4) with 16; lia).
  rewrite (low_bits (128 + m) 2 m 6) by (change (2 ^ 6) with 64; lia).
  rewrite (low_bits (128 + r) 2 r 6) by (change (2 ^ 6) with 64; lia).
  rewrite !N.shiftl_mul_pow2.
  rewrite (lor_high_low m r 6) by exact R.
  rewrite (lor_high_low a (m * 2 ^ 6 + r) 12)
    by (change (2 ^ 6) with 64; change (2 ^ 12) with 4096; lia).
  change (2 ^ 6) with 64. change (2 ^ 12) with 4096. f_equal. lia.
Qed.

Lemma utf8_four (c : N) (rest : list N) :
  0x10000 <= c -> c < 0x110000 ->
  utf8_decode
    (N.lor 0xF0 (N.shiftr c 18)
     :: N.lor 0x80 (N.land (N.shiftr c 12) 0x3F)
     :: N.lor 0x80 (N.land (N.shiftr c 6) 0x3F)
     :: N.lor 0x80 (N.land c 0x3F) :: rest)
  = c :: utf8_decode rest.
Proof.
  intros Lo Hi.
  rewrite !N.shiftr_div_pow2. change 0x3F with (N.ones 6).
  rewrite !N.land_ones.
  change (2 ^ 6) with 64. change (2 ^ 12) with 4096.
  change (2 ^ 18) with 262144.
  assert (T : 64 <> 0) by discriminate.
  pose proof (N.div_mod c 64 T) as D. pose proof (N.mod_lt c 64 T) as R.
  pose proof (N.div_mod (c / 64) 64 T) as D1.
  pose proof (N.mod_lt (c / 64) 64 T) as R1.
  rewrite N.Div0.div_div in D1. change (64 * 64) with 4096 in D1.
  pose proof (N.div_mod (c / 4096) 64 T) as D2.
  pose proof (N.mod_lt (c / 4096) 64 T) as R2.
  rewrite N.Div0.div_div in D2. change (4096 * 64) with 262144 in D2.
  assert (A : c / 262144 < 8) by (apply N.Div0.div_lt_upper_bound; lia).
  generalize dependent (c / 262144).
  generalize dependent ((c / 4096) mod 64). generalize dependent (c / 4096).
  generalize dependent ((c / 64) mod 64). generalize dependent (c / 64).
  generalize dependent (c mod 64).
  intros r R q D m2 R1 q2 D1 m1 R2 a D2 A.
  assert (B0 : N.lor 240 a = 240 + a)
    by (apply (lor_high_low 30 a 3); change (2 ^ 3) with 8; lia).
  assert (B1 : N.lor 128 m1 = 128 + m1)
    by (apply (lor_high_low 2 m1 6); exact R2).
  assert (B2 : N.lor 128 m2 = 128 + m2)
    by (apply (lor_high_low 2 m2 6); exact R1).
  assert (B3 : N.lor 128 r = 128 + r) by (apply (lor_high_low 2 r 6); exact R).
  rewrite B0, B1, B2, B3. cbn [utf8_decode].
  destruct (N.ltb_spec (240 + a) 128); [lia|].
  destruct (N.ltb_spec (240 + a) 224); [lia|].
  destruct (N.ltb_spec (240 + a) 240); [lia|].
  change 7 with (N.ones 3). change 63 with (N.ones 6).
  rewrite (low_bits (240 + a) 30 a 3) by (change (2 ^ 3) with 8; lia).
  rewrite (low_bits (128 + m1) 2 m1 6) by (change (2 ^ 6) with 64; lia).
  rewrite (low_bits (128 + m2) 2 m2 6) by (change (2 ^ 6) with 64; lia).
  rewrite (low_bits (128 + r) 2 r 6) by (change (2 ^ 6) with 64; lia).
  rewrite !N.shiftl_mul_pow2.
  rewrite (lor_high_low m2 r 6) by exact R.
  rewrite (lor_high_low m1 (m2 * 2 ^ 6 + r) 12)
    by (change (2 ^ 6) with 64; change (2 ^ 12) with 4096; lia).
  rewrite (lor_high_low a (m1 * 2 ^ 12 + (m2 * 2 ^ 6 + r)) 18)
    by (change (2 ^ 6) with 64; change (2 ^ 12) with 4096;
        change (2 ^ 18) with 262144; lia).
  change (2 ^ 6) with 64. change (2 ^ 12) with 4096.
  change (2 ^ 18) with 262144. f_equal. lia.
Qed.

Lemma utf8_decode_char (c : N) (b rest : list N) :
  utf8_char c = Some b -> utf8_decode (b ++ rest) = c :: utf8_decode rest.
Proof.
  unfold utf8_char.
  destruct (N.ltb_spec c 0x80) as [L1 | G1].
  - intros [= <-]. cbn [app utf8_decode].
    destruct (N.ltb_spec c 128); [reflexivity | lia].
  - destruct (N.ltb_spec c 0x800) as [L2 | G2].
    + intros [= <-]. now apply utf8_two.
    + destruct (N.ltb_spec c 0x10000) as [L3 | G3].
      * destruct ((0xD800 <=? c) && (c <=? 0xDFFF)); [discriminate|].
        intros [= <-]. now apply utf8_three.
      * destruct (N.ltb_spec c 0x110000) as [L4 | G4]; [|discriminate].
        intros [= <-]. now apply utf8_four.
Qed.

Lemma utf8_round_trip (s : str) (b : list N) :
  encode_utf8 s = Some b -> utf8_decode b = s.
Proof.
  revert b; induction s as [|c s IH]; intros b; simpl.
  - now intros [= <-].
  - destruct (utf8_char c) as [bc|] eqn:Ec; [|discriminate].
    destruct (encode_utf8 s) as [bs|]; [|discriminate].
    intros [= <-]. rewrite (utf8_decode_char c bc bs Ec). f_equal. now apply IH.
Qed.

(** X17. The bytes that [compute_proof_hash] gives to SHA-256 tell the
    content: the UTF-8 encoding of the canonical text can be decoded back,
    so for two metadata values the hashed bytes are the same exactly when
    the values are equal; equal proof hashes of different contents would
    be a collision of SHA-256 itself. *)
Theorem hashed_bytes_tell_content (m1 m2 : json) (b1 b2 : list N) :
  wf_json m1 = true -> wf_json m2 = true ->
  encode_utf8 (dumps true m1) = Some b1 ->
  encode_utf8 (dumps true m2) = Some b2 ->
  compute_proof_hash m1 = inr (SHA256.hexdigest b1)
  /\ compute_proof_hash m2 = inr (SHA256.hexdigest b2)
  /\ utf8_decode b1 = dumps true m1
  /\ (b1 = b2 <-> py_eq m1 m2 = true).
Proof.
  intros W1 W2 E1 E2.
  split; [unfold compute_proof_hash; now rewrite E1|].
  split; [unfold compute_proof_hash; now rewrite E2|].
  split; [now apply utf8_round_trip|].
  split.
  - intros ->. apply canonical_text_unique; [exact W1 | exact W2|].
    rewrite <- (utf8_round_trip _ _ E1). now apply utf8_round_trip.
  - intros H. rewrite (dumps_sorted_py_eq m1 m2 W1 W2 H) in E1. congruence.
Qed.

Lemma hashed_bytes_tell_content_witness :
  exists b1 b2,
    encode_utf8 (dumps true scenario_metadata) = Some b1
    /\ encode_utf8 (dumps true scenario_metadata_reordered) = Some b2
    /\ utf8_decode b1 = dumps true scenario_metadata
    /\ (b1 = b2
        <-> py_eq scenario_metadata scenario_metadata_reordered = true).
Proof.
  destruct (encode_utf8 (dumps true scenario_metadata)) as [b1|] eqn:E1;
    [|vm_compute in E1; discriminate].
  destruct (encode_utf8 (dumps true scenario_metadata_reordered)) as [b2|] eqn:E2;
    [|vm_compute in E2; discriminate].
  assert (W1 : wf_json scenario_metadata = true) by (vm_compute; reflexivity).
  assert (W2 : wf_json scenario_metadata_reordered = true)
    by (vm_compute; reflexivity).
  destruct (hashed_bytes_tell_content _ _ _ _ W1 W2 E1 E2) as (_ & _ & D & I).
  exists b1, b2. split; [reflexivity|]. split; [reflexivity|].
  split; [exact D | exact I].
Defined.

(** ** The order of the listings *)

Section SortOrder.
Context {A : Type} (key : A -> str).

Lemma filter_insert_by (k : str) (x : A) (l : list A) :
  filter (fun y => str_eqb (key y) k) (insert_by key x l)
  = filter (fun y => str_eqb (key y) k) (x :: l).
Proof.
  induction l as [|y l IH]; [reflexivity|].
  cbn [insert_by]. destruct (str_ltb (key y) (key x)) eqn:L; [|reflexivity].
  cbn [filter] in *. rewrite IH.
  destruct (str_eqb (key x) k) eqn:Ex, (str_eqb (key y) k) eqn:Ey;
    try reflexivity.
  apply str_eqb_eq in Ex, Ey. rewrite Ex, Ey, str_ltb_irrefl in L.
  discriminate.
Qed.

(** The sort is stable, in both directions: elements with the same key
    stay in the order they had. *)
Lemma list_sort_stable (reverse : bool) (k : str) (l : list A) :
  filter (fun y => str_eqb (key y) k) (list_sort key reverse l)
  = filter (fun y => str_eqb (key y) k) l.
Proof.
  assert (S : forall l0, filter (fun y => str_eqb (key y) k) (sort_by key l0)
                         = filter (fun y => str_eqb (key y) k) l0).
  { induction l0 as [|x l0 IH]; [reflexivity|].
    cbn [sort_by]. rewrite filter_insert_by. cbn [filter]. now rewrite IH. }
  destruct reverse; cbn [list_sort]; [|apply S].
  now rewrite filter_rev, S, filter_rev, rev_involutive.
Qed.

Lemma insert_by_before_last (a x : A) (s : list A) :
  str_ltb (key x) (key a) = false ->
  insert_by key a (s ++ [x]) = insert_by key a s ++ [x].
Proof.
  intros H. induction s as [|y s IH]; cbn [app insert_by].
  - now rewrite H.
  - destruct (str_ltb (key y) (key a)); [now rewrite IH | reflexivity].
Qed.

(** An element that comes last and whose key is not below any other stays
    last. *)
Lemma sort_by_keeps_last (x : A) (l : list A) :
  (forall a, In a l -> str_leb (key a) (key x) = true) ->
  sort_by key (l ++ [x]) = sort_by key l ++ [x].
Proof.
  induction l as [|a l IH]; intros H; [reflexivity|].
  cbn [app sort_by]. rewrite IH by (intros b Hb; apply H; now right).
  apply insert_by_before_last.
  specialize (H a (or_introl eq_refl)). unfold str_leb in H.
  now apply negb_true_iff in H.
Qed.

(** In a list in descending order, an element above all others is the
    first. *)
Lemma descending_head (x : A) (l : list A) :
  StronglySorted (fun a b => key_le key b a) l -> In x l ->
  (forall y, In y l -> y = x \/ str_ltb (key y) (key x) = true) ->
  exists rest, l = x :: rest.
Proof.
  intros S Hin Top. destruct l as [|a t]; [destruct Hin|].
  destruct (Top a (or_introl eq_refl)) as [-> | Lt]; [eauto|].
  exfalso. destruct Hin as [-> | Hin].
  - rewrite str_ltb_irrefl in Lt. discriminate.
  - inversion S as [|? ? _ F]; subst. rewrite Forall_forall in F.
    specialize (F x Hin). unfold key_le, str_leb in F.
    rewrite Lt in F. discriminate.
Qed.
End SortOrder.

(** X18. Ties keep the order of the store: among the records of the
    pending queue that [admin] computes that have the same [created_at],
    and among the records of the approved list that [admin] and [market]
    compute (sorted with [reverse=True]) that have the same [updated_at],
    the order is the one they have in the store. *)
Theorem listings_keep_store_order_on_ties (ADMIN_KEY : str) (db : list item)
    (t : str) :
  exists pending_items approved_items,
    admin_items ADMIN_KEY ADMIN_KEY db = Some (pending_items, approved_items)
    /\ market_items db = approved_items
    /\ filter (fun x => str_eqb (created_at (timestamps x)) t) pending_items
       = filter (fun x => str_eqb (created_at (timestamps x)) t)
           (filter (has_status (py "pending")) db)
    /\ filter (fun x => str_eqb (updated_at (timestamps x)) t) approved_items
       = filter (fun x => str_eqb (updated_at (timestamps x)) t)
           (filter (has_status (py "approved")) db).
Proof.
  unfold admin_items, market_items. rewrite str_eqb_refl. cbn [negb].
  do 2 eexists. split; [reflexivity|]. split; [reflexivity|].
  split; apply list_sort_stable.
Qed.

(** X19. The newest approval comes first: when approve, with the admin
    key, stamps a record with a time later than the [updated_at] of every
    other approved record, that record is the first of the approved list
    that [market] computes. *)
Theorem newest_approval_comes_first (ADMIN_KEY : str) (item_id : Z)
    (clock : datetime) (db : list item) (i : nat) (it : item) :
  nth_error db i = Some it -> id it = item_id ->
  (forall j x, (j < i)%nat -> nth_error db j = Some x -> id x <> item_id) ->
  (forall y,
     In y (snd (admin_approve ADMIN_KEY ADMIN_KEY item_id clock db)) ->
     status y = py "approved" ->
     y = set_status (py "approved") (isoformat clock) it
     \/ str_ltb (updated_at (timestamps y)) (isoformat clock) = true) ->
  exists rest,
    market_items (snd (admin_approve ADMIN_KEY ADMIN_KEY item_id clock db))
    = set_status (py "approved") (isoformat clock) it :: rest.
Proof.
  intros Hi Hid First Newest.
  set (db' := snd (admin_approve ADMIN_KEY ADMIN_KEY item_id clock db)) in *.
  set (x := set_status (py "approved") (isoformat clock) it) in *.
  assert (At : In x db').
  { destruct (admin_call_nth true item_id (py "approved") (isoformat clock)
                db i it Hi) as (it' & A & _ & C).
    rewrite (C eq_refl Hid First) in A. apply nth_error_In in A.
    unfold db'. rewrite admin_approve_reviewed, str_eqb_refl. exact A. }
  unfold market_items.
  destruct (descending_head (fun y => updated_at (timestamps y)) x
              (list_sort (fun y => updated_at (timestamps y)) true
                 (filter (has_status (py "approved")) db')))
    as [rest ->]; [apply list_sort_descending | | | eauto].
  - eapply Permutation_in; [symmetry; apply list_sort_perm|].
    apply filter_status_In. split; [exact At | reflexivity].
  - intros y Hy. eapply Permutation_in in Hy; [|apply list_sort_perm].
    apply filter_status_In in Hy as [Hy Sy].
    destruct (Newest y Hy Sy) as [-> | Lt]; [now left | right; exact Lt].
Qed.

Lemma newest_approval_comes_first_witness :
  exists it rest,
    nth_error submitted_store 3 = Some it
    /\ market_items
         (snd (admin_approve default_admin_key default_admin_key 104
                 (Datetime 2024 1 4 12 0 0 0) submitted_store))
       = set_status (py "approved")
           (isoformat (Datetime 2024 1 4 12 0 0 0)) it :: rest
    /\ List.length rest = 3%nat.
Proof.
  destruct (nth_error submitted_store 3) as [it|] eqn:E;
    [|vm_compute in E; discriminate].
  pose proof E as V. vm_compute in V. injection V as <-.
  assert (First : forall j x, (j < 3)%nat ->
                    nth_error submitted_store j = Some x -> id x <> 104%Z).
  { intros j x Hj Hx.
    destruct j as [|[|[|j]]]; [| | |lia];
      vm_compute in Hx; injection Hx as <-; cbn [id]; discriminate. }
  destruct (newest_approval_comes_first default_admin_key 104
              (Datetime 2024 1 4 12 0 0 0) submitted_store 3 _ E eq_refl First)
    as [rest M].
  { intros y Hin _. vm_compute in Hin.
    repeat (destruct Hin as [<- | Hin];
            [first [left; vm_compute; reflexivity
                   | right; vm_compute; reflexivity]|]).
    destruct Hin. }
  eexists. exists rest. split; [reflexivity|]. split; [exact M|].
  vm_compute in M. injection M as <-. reflexivity.
Defined.

(** X20. In a run whose clock never goes back, a confirmed submission is
    the last entry of the pending queue that [admin] computes. *)
Theorem submission_joins_queue_at_the_end (ADMIN_KEY : str)
    (last clock : datetime) (form : list (str * str)) (item_id : Z)
    (db db' : list item) (it : item) :
  run ADMIN_KEY last db ->
  valid_datetime clock = true -> datetime_leb last clock = true ->
  onboard POST form item_id clock db = (Confirmation it, db') ->
  exists front approved_items,
    admin_items ADMIN_KEY ADMIN_KEY db' = Some (front ++ [it], approved_items).
Proof.
  intros R V L H.
  destruct (run_invariant _ _ _ R) as [V0 F]. rewrite Forall_forall in F.
  apply onboard_confirmed in H as (-> & _ & Hs & Ht & _).
  unfold admin_items. rewrite str_eqb_refl. cbn [negb list_sort].
  rewrite filter_app. cbn [filter]. unfold has_status at 2.
  rewrite Hs, str_eqb_refl.
  rewrite sort_by_keeps_last; [eauto|].
  intros a Ha. apply filter_In in Ha as [Ha _].
  destruct (F a Ha) as [A B]. rewrite Ht. cbn [created_at].
  eapply str_leb_trans; [exact A|]. eapply str_leb_trans; [exact B|].
  now rewrite isoformat_leb.
Qed.

Lemma submission_joins_queue_at_the_end_witness :
  exists it db' front approved_items,
    onboard POST blank_producer_form 105 (Datetime 2024 1 5 8 0 0 0)
      rejected_store = (Confirmation it, db')
    /\ admin_items default_admin_key default_admin_key db'
       = Some (front ++ [it], approved_items).
Proof.
  assert (R : run default_admin_key (Datetime 2024 1 3 11 30 0 250000)
                rejected_store).
  { replace rejected_store
      with (snd (admin_reject default_admin_key default_admin_key 104
                   (Datetime 2024 1 3 11 30 0 250000) submitted_store))
      by (vm_compute; reflexivity).
    apply run_reject with (Datetime 2024 1 2 10 0 0 0);
      [|reflexivity|reflexivity].
    replace submitted_store
      with (snd (onboard POST scenario_form 104
                   (Datetime 2024 1 2 10 0 0 0) seeded_store))
      by (vm_compute; reflexivity).
    apply run_onboard with (Datetime 2024 1 1 9 0 0 1);
      [|reflexivity|reflexivity].
    apply run_seed with [101; 102; 103]%Z; vm_compute; reflexivity. }
  destruct (onboard POST blank_producer_form 105 (Datetime 2024 1 5 8 0 0 0)
              rejected_store) as [r db'] eqn:E.
  pose proof E as W. vm_compute in W. injection W as <- <-.
  destruct (submission_joins_queue_at_the_end default_admin_key
              (Datetime 2024 1 3 11 30 0 250000) (Datetime 2024 1 5 8 0 0 0)
              _ _ _ _ _ R eq_refl eq_refl E) as (front & approved & M).
  eexists. eexists. exists front, approved. split; [reflexivity | exact M].
Defined.
